(** * Redditor agent: trigger pipeline, response generator, conversation store

    A shallow embedding of the Devvit application under [devvit-app/src]:
    - [services/ai.ts]: [generateAIResponse], [generateOpenAIResponse],
      [generateAnthropicResponse], [storeConversation],
      [getConversationHistory];
    - [triggers/post-submit.ts] and [triggers/comment-create.ts]: the two
      [onEvent] handlers.

    The platform collaborators (settings, Reddit client, Redis, [fetch],
    the clock and the console) are modelled by a read-only environment of
    oracles and a mutable world; the handlers are written in a small
    state-and-exception monad in the order of the TypeScript statements.
    The settings provider, the identity lookup and Redis always answer;
    [fetch], [response.json()], [submitComment], [new RegExp] and property
    reads may throw.

    Strings are JavaScript strings whose code units are below 256 (the
    Latin-1 range): case mapping, white space and line terminators are those
    of ECMAScript on that range.
    JSON numbers are rationals; only their being zero is observed. *)

From Stdlib Require Import ZArith QArith Ascii String List Lia.
From Stdlib Require Import DecimalString DecimalZ Sorted.
From stdpp Require Import gmap strings list.

Local Open Scope Z_scope.

(** ** JavaScript string primitives *)

Module Js.

Fixpoint string_map (f : ascii -> ascii) (s : string) : string :=
  match s with
  | EmptyString => EmptyString
  | String c s' => String (f c) (string_map f s')
  end.

Definition between (lo hi : nat) (c : ascii) : bool :=
  (lo <=? nat_of_ascii c)%nat && (nat_of_ascii c <=? hi)%nat.

(** The code units below 256 with a lower-case mapping: [A]-[Z], U+00C0 to
    U+00D6 and U+00D8 to U+00DE (U+00D7 is the multiplication sign). *)
Definition is_upper (c : ascii) : bool :=
  between 65 90 c || between 192 214 c || between 216 222 c.

(** Their images: [a]-[z], U+00E0 to U+00F6 and U+00F8 to U+00FE (U+00F7 is
    the division sign). *)
Definition is_lower (c : ascii) : bool :=
  between 97 122 c || between 224 246 c || between 248 254 c.

(** The lower-case mapping of one code unit: 32 units up. *)
Definition lower_char (c : ascii) : ascii :=
  if is_upper c then ascii_of_nat (nat_of_ascii c + 32) else c.

(** [String.prototype.toLowerCase] *)
Definition toLowerCase (s : string) : string := string_map lower_char s.

(** [String.prototype.includes]: [k] occurs in [s] at some index. *)
Fixpoint includes (s k : string) : bool :=
  String.prefix k s ||
  match s with
  | EmptyString => false
  | String _ s' => includes s' k
  end.

(** WhiteSpace and LineTerminator code units below 256: TAB, LF, VT, FF,
    CR, SP and the no-break space U+00A0. *)
Definition is_white (c : ascii) : bool :=
  match nat_of_ascii c with
  | 9%nat | 10%nat | 11%nat | 12%nat | 13%nat | 32%nat | 160%nat => true
  | _ => false
  end.

Definition is_line_terminator (c : ascii) : bool :=
  match nat_of_ascii c with
  | 10%nat | 13%nat => true
  | _ => false
  end.

Fixpoint trimStart (s : string) : string :=
  match s with
  | EmptyString => EmptyString
  | String c s' => if is_white c then trimStart s' else s
  end.

Fixpoint trimEnd (s : string) : string :=
  match s with
  | EmptyString => EmptyString
  | String c s' =>
      match trimEnd s' with
      | EmptyString => if is_white c then EmptyString else String c EmptyString
      | t => String c t
      end
  end.

(** [String.prototype.trim] *)
Definition trim (s : string) : string := trimEnd (trimStart s).

(** JavaScript truthiness of a string: [!s] holds exactly for the empty one. *)
Definition truthy_string (s : string) : bool :=
  match s with EmptyString => false | _ => true end.

(** [x || d] for an optional string [x] ([None] is [undefined]). *)
Definition or_default (x : option string) (d : string) : string :=
  match x with
  | Some s => if truthy_string s then s else d
  | None => d
  end.

(** *** Regular expressions: the modelled fragment

    [new RegExp(p, 'gi')] is modelled on patterns made of pattern characters
    and the wildcard [.]; such a pattern always compiles.  A pattern that
    opens a group with [(] and has no [)], no class and no escape never
    compiles (unterminated group).  Every other pattern is left to the
    environment (see [regexp_oracle] below), so that statements quantified
    over environments hold whatever the engine does there. *)

Inductive Atom :=
| PatternCharacter (c : ascii)
| AtomDot.

(** SyntaxCharacter :: one of [^ $ \ . * + ? ( ) [ ] { } |] *)
Definition is_syntax_char (c : ascii) : bool :=
  match nat_of_ascii c with
  | 94%nat | 36%nat | 92%nat | 46%nat | 42%nat | 43%nat | 63%nat
  | 40%nat | 41%nat | 91%nat | 93%nat | 123%nat | 125%nat | 124%nat => true
  | _ => false
  end.

Fixpoint no_syntax_char (p : string) : bool :=
  match p with
  | EmptyString => true
  | String c p' => negb (is_syntax_char c) && no_syntax_char p'
  end.

Fixpoint parse_atoms (p : string) : option (list Atom) :=
  match p with
  | EmptyString => Some []
  | String c p' =>
      match parse_atoms p' with
      | None => None
      | Some atoms =>
          if Ascii.eqb c "."%char then Some (AtomDot :: atoms)
          else if is_syntax_char c then None
          else Some (PatternCharacter c :: atoms)
      end
  end.

Fixpoint contains_char (c : ascii) (p : string) : bool :=
  match p with
  | EmptyString => false
  | String d p' => Ascii.eqb c d || contains_char c p'
  end.

Definition unterminated_group (p : string) : bool :=
  contains_char "("%char p && negb (contains_char ")"%char p)
  && negb (contains_char "["%char p) && negb (contains_char "\"%char p).

(** Canonicalize (ignoreCase, non-unicode mode): the code unit of the
    upper-case mapping when that mapping is a single code unit, the code
    unit itself otherwise.  Below 256 the letters of [is_lower] map 32 units
    down, the micro sign U+00B5 maps to U+039C, [y] with diaeresis U+00FF
    maps to U+0178, and the sharp s U+00DF, whose upper case has two code
    units, is kept.  The result is a code unit, not always below 256. *)
Definition canonicalize (c : ascii) : nat :=
  match nat_of_ascii c with
  | 181%nat => 924%nat
  | 255%nat => 376%nat
  | n => if is_lower c then (n - 32)%nat else n
  end.

Definition atom_matches (a : Atom) (c : ascii) : bool :=
  match a with
  | PatternCharacter p => Nat.eqb (canonicalize p) (canonicalize c)
  | AtomDot => negb (is_line_terminator c)
  end.

(** Does the atom sequence match at the start of [s]?  Each atom consumes
    one code unit, so a match has the length of the sequence. *)
Fixpoint match_here (atoms : list Atom) (s : string) : bool :=
  match atoms, s with
  | [], _ => true
  | a :: atoms', String c s' => atom_matches a c && match_here atoms' s'
  | _ :: _, EmptyString => false
  end.

(** [s.replace(re, '')] for a global regular expression of the fragment:
    scan from the left; at a match drop its code units and resume after it;
    elsewhere (and at an empty match) keep the code unit.  [skip] counts the
    code units of the current match still to drop. *)
Fixpoint replace_scan (atoms : list Atom) (skip : nat) (s : string) : string :=
  match s with
  | EmptyString => EmptyString
  | String c s' =>
      match skip with
      | S k => replace_scan atoms k s'
      | O =>
          if match_here atoms s then
            match length atoms with
            | S n => replace_scan atoms n s'
            | O => String c (replace_scan atoms 0 s')
            end
          else String c (replace_scan atoms 0 s')
      end
  end.

Definition replace_all (atoms : list Atom) (s : string) : string :=
  replace_scan atoms 0 s.

End Js.

(** ** JSON values and the stored entry *)

(** A JavaScript value as [JSON.parse] and [response.json()] produce it;
    [undefined] is [None] of [option JsValue]. *)
#[warnings="-register-all"]
Inductive JsValue :=
| JNull
| JBool (b : bool)
| JNum (q : Q)
| JStr (s : string)
| JArr (items : list JsValue)
| JObj (fields : list (string * JsValue)).

(** [interface ConversationEntry] of [types/index.ts]. *)
Record ConversationEntry := {
  timestamp : Z;
  question : string;
  answer : string
}.

Module Json.

Definition dquote : ascii := ascii_of_nat 34.
Definition backslash : ascii := ascii_of_nat 92.

(** [p] followed by [k]. *)
Fixpoint onto (p k : string) : string :=
  match p with
  | EmptyString => k
  | String c p' => String c (onto p' k)
  end.

Definition hex_digit (n : nat) : ascii :=
  ascii_of_nat (if (n <? 10)%nat then 48 + n else 87 + n).

(** QuoteJSONString, one code unit. *)
Definition escape_onto (c : ascii) (k : string) : string :=
  match nat_of_ascii c with
  | 8%nat => String backslash (String "b" k)
  | 9%nat => String backslash (String "t" k)
  | 10%nat => String backslash (String "n" k)
  | 12%nat => String backslash (String "f" k)
  | 13%nat => String backslash (String "r" k)
  | 34%nat => String backslash (String dquote k)
  | 92%nat => String backslash (String backslash k)
  | n =>
      if (n <? 32)%nat then
        String backslash (String "u" (String "0" (String "0"
          (String (hex_digit (n / 16)) (String (hex_digit (n mod 16)) k)))))
      else String c k
  end.

Fixpoint quote_body_onto (s k : string) : string :=
  match s with
  | EmptyString => String dquote k
  | String c s' => escape_onto c (quote_body_onto s' k)
  end.

Definition quote_onto (s k : string) : string :=
  String dquote (quote_body_onto s k).

(** Number::toString of an integer (below 10^21 in magnitude). *)
Definition number_to_string (z : Z) : string :=
  NilZero.string_of_int (Z.to_int z).

(** [JSON.stringify({ timestamp, question, answer })] *)
Definition stringify_entry (e : ConversationEntry) : string :=
  onto "{" (quote_onto "timestamp" (onto ":" (onto (number_to_string (timestamp e))
    (onto "," (quote_onto "question" (onto ":" (quote_onto (question e)
      (onto "," (quote_onto "answer" (onto ":" (quote_onto (answer e) "}"))))))))))).

(** *** Decoding a member *)

Definition hex_value (c : ascii) : option nat :=
  let n := nat_of_ascii c in
  if (48 <=? n)%nat && (n <=? 57)%nat then Some (n - 48)%nat
  else if (97 <=? n)%nat && (n <=? 102)%nat then Some (n - 87)%nat
  else if (65 <=? n)%nat && (n <=? 70)%nat then Some (n - 55)%nat
  else None.

Definition unescape_simple (c : ascii) : option ascii :=
  match nat_of_ascii c with
  | 98%nat => Some (ascii_of_nat 8)
  | 116%nat => Some (ascii_of_nat 9)
  | 110%nat => Some (ascii_of_nat 10)
  | 102%nat => Some (ascii_of_nat 12)
  | 114%nat => Some (ascii_of_nat 13)
  | 34%nat => Some dquote
  | 92%nat => Some backslash
  | 47%nat => Some "/"%char
  | _ => None
  end.

Definition unescape_u (h1 h2 h3 h4 : ascii) : option ascii :=
  match hex_value h1, hex_value h2, hex_value h3, hex_value h4 with
  | Some 0%nat, Some 0%nat, Some a, Some b => Some (ascii_of_nat (16 * a + b))
  | _, _, _, _ => None
  end.

Definition push (c : ascii) (r : option (string * string)) : option (string * string) :=
  match r with
  | Some (s, rest) => Some (String c s, rest)
  | None => None
  end.

(** The characters of a JSON string after its opening quote: the decoded
    string and the text after the closing quote. *)
Fixpoint parse_string_body (s : string) : option (string * string) :=
  match s with
  | EmptyString => None
  | String c s1 =>
      if Ascii.eqb c dquote then Some (EmptyString, s1)
      else if Ascii.eqb c backslash then
        match s1 with
        | EmptyString => None
        | String e s2 =>
            if Ascii.eqb e "u"%char then
              match s2 with
              | String h1 (String h2 (String h3 (String h4 s6))) =>
                  match unescape_u h1 h2 h3 h4 with
                  | Some d => push d (parse_string_body s6)
                  | None => None
                  end
              | _ => None
              end
            else
              match unescape_simple e with
              | Some d => push d (parse_string_body s2)
              | None => None
              end
        end
      else if (nat_of_ascii c <? 32)%nat then None
      else push c (parse_string_body s1)
  end.

Definition parse_string (s : string) : option (string * string) :=
  match s with
  | String c s1 => if Ascii.eqb c dquote then parse_string_body s1 else None
  | EmptyString => None
  end.

Definition is_number_char (c : ascii) : bool :=
  Ascii.eqb c "-"%char ||
  ((48 <=? nat_of_ascii c)%nat && (nat_of_ascii c <=? 57)%nat).

(** The longest prefix of sign and digit characters, and the rest. *)
Fixpoint span_number (s : string) : string * string :=
  match s with
  | EmptyString => (EmptyString, EmptyString)
  | String c s' =>
      if is_number_char c then
        let (n, rest) := span_number s' in (String c n, rest)
      else (EmptyString, s)
  end.

Definition parse_integer (s : string) : option (Z * string) :=
  let (n, rest) := span_number s in
  match NilZero.int_of_string n with
  | Some d => Some (Z.of_int d, rest)
  | None => None
  end.

(** Consume the literal [p] at the start of [s]. *)
Fixpoint expect (p s : string) : option string :=
  match p, s with
  | EmptyString, _ => Some s
  | String c p', String d s' => if Ascii.eqb c d then expect p' s' else None
  | String _ _, EmptyString => None
  end.

Definition expect_key (name s : string) : option string :=
  match parse_string s with
  | Some (k, rest) => if String.eqb k name then expect ":" rest else None
  | None => None
  end.

(** [JSON.parse(member)] on the texts [stringify_entry] writes: an object
    with the three properties in that order and no insignificant white
    space.  Any other text is reported as [None]. *)
Definition parse_entry (s : string) : option ConversationEntry :=
  match expect "{" s with
  | None => None
  | Some s1 =>
  match expect_key "timestamp" s1 with
  | None => None
  | Some s2 =>
  match parse_integer s2 with
  | None => None
  | Some (ts, s3) =>
  match expect "," s3 with
  | None => None
  | Some s4 =>
  match expect_key "question" s4 with
  | None => None
  | Some s5 =>
  match parse_string s5 with
  | None => None
  | Some (q, s6) =>
  match expect "," s6 with
  | None => None
  | Some s7 =>
  match expect_key "answer" s7 with
  | None => None
  | Some s8 =>
  match parse_string s8 with
  | None => None
  | Some (a, s9) =>
  match expect "}" s9 with
  | Some EmptyString => Some {| timestamp := ts; question := q; answer := a |}
  | _ => None
  end end end end end end end end end end.

End Json.

(** ** The Redis collaborator: sorted sets and hashes *)

Module Redis.

(** A sorted set: [(score, member)] pairs, members unique, kept in ascending
    order of score and, for equal scores, of member text. *)
Abbreviation ZSet := (list (Z * string)).

Definition entry_leb (a b : Z * string) : bool :=
  (a.1 <? b.1) || ((a.1 =? b.1) && String.leb a.2 b.2).

Fixpoint insert_sorted (x : Z * string) (l : ZSet) : ZSet :=
  match l with
  | [] => [x]
  | y :: l' => if entry_leb x y then x :: l else y :: insert_sorted x l'
  end.

Definition remove_member (member : string) (l : ZSet) : ZSet :=
  List.filter (fun e => negb (String.eqb e.2 member)) l.

(** ZADD key score member: a member already present moves to its new score. *)
Definition zadd (score : Z) (member : string) (l : ZSet) : ZSet :=
  insert_sorted (score, member) (remove_member member l).

(** ZCARD *)
Definition zcard (l : ZSet) : Z := Z.of_nat (length l).

(** Rank arguments are inclusive; a negative rank counts from the end.
    The result is the first rank and the number of ranks selected. *)
Definition rank_window (len start stop : Z) : option (nat * nat) :=
  let start' := if start <? 0 then Z.max 0 (len + start) else start in
  let stop' := Z.min (if stop <? 0 then len + stop else stop) (len - 1) in
  if start' <=? stop' then Some (Z.to_nat start', Z.to_nat (stop' - start' + 1))
  else None.

(** ZREMRANGEBYRANK key start stop *)
Definition zremrangebyrank (start stop : Z) (l : ZSet) : ZSet :=
  match rank_window (zcard l) start stop with
  | Some (first, n) => take first l ++ drop (first + n) l
  | None => l
  end.

(** ZRANGE key start stop (by rank, the default of the Devvit client) *)
Definition zrange (start stop : Z) (l : ZSet) : ZSet :=
  match rank_window (zcard l) start stop with
  | Some (first, n) => take n (drop first l)
  | None => []
  end.

End Redis.

(** ** Collaborators, world and the effect monad *)

(** The settings declared with [Devvit.addSettings]; [None] is [undefined]. *)
Record Settings := {
  openai_key : option string;
  anthropic_key : option string;
  ai_provider : option (list string);
  auto_reply_enabled : option bool;
  trigger_keyword : option string
}.

(** The fields of [User] the handlers read: [id] and [username]. *)
Record User := { user_id : string; username : string }.

Record Request := {
  url : string;
  method : string;
  headers : list (string * string);
  body : JsValue   (* the object passed to JSON.stringify *)
}.

(** A settled [fetch]: [json_body] is [None] when the body is not JSON text
    and [response.json()] rejects. *)
Record Response := { status : Z; json_body : option JsValue }.

Inductive FetchResult :=
| FetchRejected
| FetchResponse (r : Response).

(** What can be thrown: [new Error(message)], a TypeError of a property
    read on [null] or [undefined], a SyntaxError of [new RegExp] or of
    [JSON.parse], a rejected [fetch], a rejected [submitComment]. *)
Inductive JsError :=
| Error_ (message : string)
| TypeError_
| SyntaxError_
| NetworkError_
| SubmitError_.

(** The observable steps of a run, in the order they happen. *)
Inductive Effect :=
| CallGenerate (question : string)
| CallFetch (req : Request)
| CallSubmitComment (id : string) (text : JsValue)
| ConsoleLog (message : string)
| ConsoleError (message : string) (error : JsError).

(** What the collaborators answer during one run:
    - [settings]: the installation's settings;
    - [currentUser]: the account the app runs as, if any;
    - [fetch_result]: how the network settles each request;
    - [submit_succeeds]: whether [submitComment] accepts a reply;
    - [clock]: the successive readings of [Date.now()];
    - [regexp_oracle]: for a pattern outside the modelled fragment, [None]
      when [new RegExp] throws, otherwise what replacing all its matches by
      the empty string does to a text. *)
Record Env := {
  settings : Settings;
  currentUser : option User;
  fetch_result : Request -> FetchResult;
  submit_succeeds : string -> JsValue -> bool;
  clock : nat -> Z;
  regexp_oracle : string -> option (string -> string)
}.

(** What a run can change: the Redis hashes (integer fields) and sorted
    sets, the number of clock readings taken, and the trace. *)
Record World := {
  redis_hashes : gmap string (gmap string Z);
  redis_zsets : gmap string Redis.ZSet;
  ticks : nat;
  trace : list Effect
}.

Definition initial_world : World :=
  {| redis_hashes := ∅; redis_zsets := ∅; ticks := 0%nat; trace := [] |}.

(** A computation returns a value or throws; either way it leaves a world. *)
Inductive Outcome (A : Type) :=
| Returned (a : A)
| Thrown (e : JsError).
Arguments Returned {A} a.
Arguments Thrown {A} e.

Definition M (A : Type) : Type := Env -> World -> Outcome A * World.

Definition ret {A} (a : A) : M A := fun _ w => (Returned a, w).

Definition bind {A B} (m : M A) (k : A -> M B) : M B :=
  fun env w =>
    match m env w with
    | (Returned a, w') => k a env w'
    | (Thrown e, w') => (Thrown e, w')
    end.

Definition throw {A} (e : JsError) : M A := fun _ w => (Thrown e, w).

(** [try { m } catch (error) { handler(error) }] *)
Definition try_catch {A} (m : M A) (handler : JsError -> M A) : M A :=
  fun env w =>
    match m env w with
    | (Returned a, w') => (Returned a, w')
    | (Thrown e, w') => handler e env w'
    end.

Declare Scope js_scope.
Delimit Scope js_scope with js.
Notation "x <- m ;; k" := (bind m (fun x => k))
  (at level 100, m at next level, right associativity) : js_scope.
Notation "m ;; k" := (bind m (fun _ => k))
  (at level 100, right associativity) : js_scope.
Local Open Scope js_scope.

Definition emit (e : Effect) : M unit :=
  fun _ w =>
    (Returned tt,
     {| redis_hashes := redis_hashes w; redis_zsets := redis_zsets w;
        ticks := ticks w; trace := trace w ++ [e] |}).

(** [await context.settings.get(name)] *)
Definition settings_get {A} (field : Settings -> A) : M A :=
  fun env w => (Returned (field (settings env)), w).

(** [await context.reddit.getCurrentUser()] *)
Definition reddit_getCurrentUser : M (option User) :=
  fun env w => (Returned (currentUser env), w).

(** [await context.reddit.submitComment({ id, text })] *)
Definition reddit_submitComment (id : string) (text : JsValue) : M unit :=
  emit (CallSubmitComment id text) ;;
  fun env w =>
    if submit_succeeds env id text then (Returned tt, w) else (Thrown SubmitError_, w).

Definition console_log (message : string) : M unit := emit (ConsoleLog message).

Definition console_error (message : string) (error : JsError) : M unit :=
  emit (ConsoleError message error).

(** [await fetch(url, init)] *)
Definition fetch (req : Request) : M Response :=
  emit (CallFetch req) ;;
  fun env w =>
    match fetch_result env req with
    | FetchResponse r => (Returned r, w)
    | FetchRejected => (Thrown NetworkError_, w)
    end.

(** [Date.now()]: the next reading of the clock. *)
Definition Date_now : M Z :=
  fun env w =>
    (Returned (clock env (ticks w)),
     {| redis_hashes := redis_hashes w; redis_zsets := redis_zsets w;
        ticks := S (ticks w); trace := trace w |}).

Definition zset_at (key : string) (w : World) : Redis.ZSet :=
  default [] (redis_zsets w !! key).

Definition update_zset (key : string) (f : Redis.ZSet -> Redis.ZSet) : M unit :=
  fun _ w =>
    (Returned tt,
     {| redis_hashes := redis_hashes w;
        redis_zsets := <[key := f (zset_at key w)]> (redis_zsets w);
        ticks := ticks w; trace := trace w |}).

(** [await context.redis.zAdd(key, { score, member })] *)
Definition redis_zAdd (key : string) (score : Z) (member : string) : M unit :=
  update_zset key (Redis.zadd score member).

(** [await context.redis.zCard(key)] *)
Definition redis_zCard (key : string) : M Z :=
  fun _ w => (Returned (Redis.zcard (zset_at key w)), w).

(** [await context.redis.zRemRangeByRank(key, start, stop)] *)
Definition redis_zRemRangeByRank (key : string) (start stop : Z) : M unit :=
  update_zset key (Redis.zremrangebyrank start stop).

(** [await context.redis.zRange(key, start, stop)] *)
Definition redis_zRange (key : string) (start stop : Z) : M Redis.ZSet :=
  fun _ w => (Returned (Redis.zrange start stop (zset_at key w)), w).

Definition hash_field (key field : string) (w : World) : Z :=
  default 0 (default ∅ (redis_hashes w !! key) !! field).

(** [await context.redis.hIncrBy(key, field, n)] *)
Definition redis_hIncrBy (key field : string) (n : Z) : M Z :=
  fun _ w =>
    let v := hash_field key field w + n in
    (Returned v,
     {| redis_hashes :=
          <[key := <[field := v]> (default ∅ (redis_hashes w !! key))]> (redis_hashes w);
        redis_zsets := redis_zsets w; ticks := ticks w; trace := trace w |}).

(** *** Property access on JavaScript values *)

Definition lookup_field (name : string) (fields : list (string * JsValue)) : option JsValue :=
  match List.find (fun f => String.eqb f.1 name) fields with
  | Some f => Some f.2
  | None => None
  end.

(** [v.name] for a value that is neither [null] nor [undefined], and a name
    that is neither an index nor a built-in property. *)
Definition property (v : JsValue) (name : string) : option JsValue :=
  match v with
  | JObj fields => lookup_field name fields
  | _ => None
  end.

(** [v[0]] for a value that is neither [null] nor [undefined]. *)
Definition element0 (v : JsValue) : option JsValue :=
  match v with
  | JArr items => head items
  | JStr (String c _) => Some (JStr (String c EmptyString))
  | JObj fields => lookup_field "0" fields
  | _ => None
  end.

(** [v.name]: a TypeError on [null] and [undefined]. *)
Definition get_property (v : option JsValue) (name : string) : M (option JsValue) :=
  match v with
  | None | Some JNull => throw TypeError_
  | Some v' => ret (property v' name)
  end.

(** [v[0]]: a TypeError on [null] and [undefined]. *)
Definition get_element0 (v : option JsValue) : M (option JsValue) :=
  match v with
  | None | Some JNull => throw TypeError_
  | Some v' => ret (element0 v')
  end.

(** [v?.name] *)
Definition optional_property (v : option JsValue) (name : string) : option JsValue :=
  match v with
  | None | Some JNull => None
  | Some v' => property v' name
  end.

Definition truthy (v : option JsValue) : bool :=
  match v with
  | None | Some JNull => false
  | Some (JBool b) => b
  | Some (JNum q) => negb (Qeq_bool q 0)
  | Some (JStr s) => Js.truthy_string s
  | Some (JArr _) | Some (JObj _) => true
  end.

(** [v || d] *)
Definition js_or (v : option JsValue) (d : JsValue) : JsValue :=
  match v with
  | Some x => if truthy v then x else d
  | None => d
  end.

(** [response.ok] *)
Definition response_ok (r : Response) : bool :=
  (200 <=? status r) && (status r <=? 299).

(** [await response.json()] *)
Definition response_json (r : Response) : M JsValue :=
  match json_body r with
  | Some v => ret v
  | None => throw SyntaxError_
  end.

(** *** Compiled regular expressions *)

Inductive RegExp :=
| ReFragment (atoms : list Js.Atom)
| ReOther (replace_with_empty : string -> string).

(** [new RegExp(pattern, 'gi')]: [None] when the constructor throws a
    SyntaxError. *)
Definition compile_regexp (env : Env) (pattern : string) : option RegExp :=
  match Js.parse_atoms pattern with
  | Some atoms => Some (ReFragment atoms)
  | None =>
      if Js.unterminated_group pattern then None
      else option_map ReOther (regexp_oracle env pattern)
  end.

Definition RegExp_new (pattern : string) : M RegExp :=
  fun env w =>
    match compile_regexp env pattern with
    | Some re => (Returned re, w)
    | None => (Thrown SyntaxError_, w)
    end.

(** [text.replace(re, '')] *)
Definition replace_with_empty (re : RegExp) (text : string) : string :=
  match re with
  | ReFragment atoms => Js.replace_all atoms text
  | ReOther f => f text
  end.

(** [text.replace(new RegExp(keyword, 'gi'), '').trim()]: [None] when the
    constructor throws. *)
Definition extract_question (env : Env) (keyword text : string) : option string :=
  option_map (fun re => Js.trim (replace_with_empty re text)) (compile_regexp env keyword).

(** ** services/ai.ts *)

Definition SYSTEM_PROMPT : string :=
"You are a helpful Reddit assistant. Your responses should be:
- Concise and to the point (Reddit users prefer shorter responses)
- Friendly and conversational
- Accurate and factual
- Include markdown formatting where appropriate
- Respectful of Reddit culture and community guidelines

If you don't know something, say so. Don't make things up.".

Definition apology : string :=
  "I'm sorry, I encountered an error processing your request. Please try again later.".

Definition unable : string := "Unable to generate response.".

Definition openai_not_configured : string :=
  "OpenAI API key not configured. Please contact the subreddit moderators.".

Definition anthropic_not_configured : string :=
  "Anthropic API key not configured. Please contact the subreddit moderators.".

Definition openai_request (apiKey question : string) : Request :=
  {| url := "https://api.openai.com/v1/chat/completions";
     method := "POST";
     headers := [("Authorization", "Bearer " +:+ apiKey);
                 ("Content-Type", "application/json")];
     body := JObj [("model", JStr "gpt-4-turbo-preview");
                   ("messages",
                    JArr [JObj [("role", JStr "system"); ("content", JStr SYSTEM_PROMPT)];
                          JObj [("role", JStr "user"); ("content", JStr question)]]);
                   ("max_tokens", JNum 500);
                   ("temperature", JNum (7 # 10))] |}.

Definition anthropic_request (apiKey question : string) : Request :=
  {| url := "https://api.anthropic.com/v1/messages";
     method := "POST";
     headers := [("x-api-key", apiKey);
                 ("anthropic-version", "2023-06-01");
                 ("Content-Type", "application/json")];
     body := JObj [("model", JStr "claude-3-sonnet-20240229");
                   ("max_tokens", JNum 500);
                   ("system", JStr SYSTEM_PROMPT);
                   ("messages",
                    JArr [JObj [("role", JStr "user"); ("content", JStr question)]])] |}.

Definition generateOpenAIResponse (question : string) : M JsValue :=
  apiKey <- settings_get openai_key ;;
  if negb (Js.truthy_string (default EmptyString apiKey)) then
    ret (JStr openai_not_configured)
  else
    response <- fetch (openai_request (default EmptyString apiKey) question) ;;
    if negb (response_ok response) then
      throw (Error_ ("OpenAI API error: " +:+ Json.number_to_string (status response)))
    else
      data <- response_json response ;;
      choices <- get_property (Some data) "choices" ;;
      choice <- get_element0 choices ;;
      ret (js_or (optional_property (optional_property choice "message") "content")
                 (JStr unable)).

Definition generateAnthropicResponse (question : string) : M JsValue :=
  apiKey <- settings_get anthropic_key ;;
  if negb (Js.truthy_string (default EmptyString apiKey)) then
    ret (JStr anthropic_not_configured)
  else
    response <- fetch (anthropic_request (default EmptyString apiKey) question) ;;
    if negb (response_ok response) then
      throw (Error_ ("Anthropic API error: " +:+ Json.number_to_string (status response)))
    else
      data <- response_json response ;;
      content <- get_property (Some data) "content" ;;
      block <- get_element0 content ;;
      ret (js_or (optional_property block "text") (JStr unable)).

(** [provider[0] || 'openai'] after [settings.get('ai_provider') || ['openai']] *)
Definition selected_provider (provider : option (list string)) : string :=
  Js.or_default (head (default ["openai"] provider)) "openai".

(** [CallGenerate] marks the entry into the function in the trace. *)
Definition generateAIResponse (question : string) : M JsValue :=
  emit (CallGenerate question) ;;
  provider <- settings_get ai_provider ;;
  let selectedProvider := selected_provider provider in
  try_catch
    (if String.eqb selectedProvider "anthropic" then generateAnthropicResponse question
     else generateOpenAIResponse question)
    (fun error =>
       console_error ("AI generation error (" +:+ selectedProvider +:+ "):") error ;;
       ret (JStr apology)).

Definition conversation_key (userId : string) : string := "conversation:" +:+ userId.

Definition storeConversation (userId question answer : string) : M unit :=
  let key := conversation_key userId in
  timestamp <- Date_now ;;
  let conversation :=
    Json.stringify_entry {| timestamp := timestamp; question := question; answer := answer |} in
  redis_zAdd key timestamp conversation ;;
  count <- redis_zCard key ;;
  if 5 <? count then redis_zRemRangeByRank key 0 (count - 6) else ret tt.

(** [items.map(item => JSON.parse(item.member))] *)
Fixpoint parse_members (items : Redis.ZSet) : M (list ConversationEntry) :=
  match items with
  | [] => ret []
  | item :: rest =>
      match Json.parse_entry item.2 with
      | Some e => es <- parse_members rest ;; ret (e :: es)
      | None => throw SyntaxError_
      end
  end.

Definition getConversationHistory (userId : string) : M (list ConversationEntry) :=
  let key := conversation_key userId in
  items <- redis_zRange key 0 4 ;;
  parse_members items.

(** ** triggers/post-submit.ts and triggers/comment-create.ts *)

Module PostV2.
Record t := {
  id : string;
  title : string;
  selftext : option string;
  authorId : string
}.
End PostV2.

Module CommentV2.
Record t := {
  id : string;
  body : string;
  author : string
}.
End CommentV2.

Record PostSubmitEvent := { post : option PostV2.t }.
Record CommentCreateEvent := { comment : option CommentV2.t }.

(** [settings.get('auto_reply_enabled')] is falsy when unset or [false]. *)
Definition truthy_bool (b : option bool) : bool := default false b.

(** [authorId === currentUser?.id] and [author === currentUser?.username] *)
Definition same_identity (author : string) (identity : option string) : bool :=
  match identity with
  | Some i => String.eqb author i
  | None => false
  end.

(** [`${post.title} ${post.selftext || ''}`] *)
Definition postContent (post : PostV2.t) : string :=
  PostV2.title post +:+ " " +:+ Js.or_default (PostV2.selftext post) "".

(** [text.toLowerCase().includes(triggerKeyword.toLowerCase())] *)
Definition keyword_present (triggerKeyword text : string) : bool :=
  Js.includes (Js.toLowerCase text) (Js.toLowerCase triggerKeyword).

(** [settings.get('trigger_keyword') || '!ask'] *)
Definition triggerKeyword_of (keyword : option string) : string :=
  Js.or_default keyword "!ask".

Definition PostSubmit_onEvent (event : PostSubmitEvent) : M unit :=
  try_catch
    (autoReplyEnabled <- settings_get auto_reply_enabled ;;
     if negb (truthy_bool autoReplyEnabled) then ret tt
     else
       match post event with
       | None => console_log "Post not found in event"
       | Some post =>
           currentUser <- reddit_getCurrentUser ;;
           if same_identity (PostV2.authorId post) (option_map user_id currentUser)
           then ret tt
           else
             keyword <- settings_get trigger_keyword ;;
             let triggerKeyword := triggerKeyword_of keyword in
             let postContent := postContent post in
             if negb (keyword_present triggerKeyword postContent) then ret tt
             else
               re <- RegExp_new triggerKeyword ;;
               let question := Js.trim (replace_with_empty re postContent) in
               aiResponse <- generateAIResponse question ;;
               reddit_submitComment (PostV2.id post) aiResponse ;;
               console_log ("Replied to post " +:+ PostV2.id post +:+ " with AI response") ;;
               redis_hIncrBy "stats" "posts_processed" 1 ;;
               ret tt
       end)
    (fun error => console_error "Error in PostSubmit trigger:" error).

Definition please_provide : string :=
  "Please provide a question after the trigger keyword!".

Definition CommentCreate_onEvent (event : CommentCreateEvent) : M unit :=
  try_catch
    (autoReplyEnabled <- settings_get auto_reply_enabled ;;
     if negb (truthy_bool autoReplyEnabled) then ret tt
     else
       match comment event with
       | None => console_log "Comment not found in event"
       | Some comment =>
           currentUser <- reddit_getCurrentUser ;;
           if same_identity (CommentV2.author comment) (option_map username currentUser)
           then ret tt
           else
             keyword <- settings_get trigger_keyword ;;
             let triggerKeyword := triggerKeyword_of keyword in
             if negb (keyword_present triggerKeyword (CommentV2.body comment)) then ret tt
             else
               re <- RegExp_new triggerKeyword ;;
               let question := Js.trim (replace_with_empty re (CommentV2.body comment)) in
               if negb (Js.truthy_string question) then
                 reddit_submitComment (CommentV2.id comment) (JStr please_provide)
               else
                 aiResponse <- generateAIResponse question ;;
                 reddit_submitComment (CommentV2.id comment) aiResponse ;;
                 console_log ("Replied to comment " +:+ CommentV2.id comment
                              +:+ " with AI response") ;;
                 redis_hIncrBy "stats" "comments_processed" 1 ;;
                 ret tt
       end)
    (fun error => console_error "Error in CommentCreate trigger:" error).

(** ** Vocabulary of the statements *)

(** The world after the effects [effs] were performed on top of [w]. *)
Definition add_effects (w : World) (effs : list Effect) : World :=
  {| redis_hashes := redis_hashes w; redis_zsets := redis_zsets w;
     ticks := ticks w; trace := trace w ++ effs |}.

Definition is_generate (e : Effect) : bool :=
  match e with CallGenerate _ => true | _ => false end.

Definition is_submit (e : Effect) : bool :=
  match e with CallSubmitComment _ _ => true | _ => false end.

Definition is_fetch (e : Effect) : bool :=
  match e with CallFetch _ => true | _ => false end.

Definition is_console_error (e : Effect) : bool :=
  match e with ConsoleError _ _ => true | _ => false end.


(** *** Outcomes of a provider call *)

Inductive ProviderOutcome :=
| MissingCredential
| NetworkFailure
| BadStatus (code : Z)
| NotJson
| PathThrows
| NoText
| Text (v : JsValue).

Definition uses_anthropic (env : Env) : bool :=
  String.eqb (selected_provider (ai_provider (settings env))) "anthropic".

Definition credential (env : Env) : string :=
  default EmptyString
    (if uses_anthropic env then anthropic_key (settings env) else openai_key (settings env)).

Definition request_of (env : Env) (question : string) : Request :=
  if uses_anthropic env then anthropic_request (credential env) question
  else openai_request (credential env) question.

(** The value at the provider's text path, [None] when reading it throws:
    [data.choices[0]?.message?.content] and [data.content[0]?.text]. *)
Definition read_text (anthropic : bool) (data : JsValue) : option (option JsValue) :=
  match data with
  | JNull => None
  | _ =>
      match property data (if anthropic then "content" else "choices") with
      | None | Some JNull => None
      | Some items =>
          Some (if anthropic then optional_property (element0 items) "text"
                else optional_property (optional_property (element0 items) "message")
                                       "content")
      end
  end.

Definition provider_outcome (env : Env) (question : string) : ProviderOutcome :=
  if negb (Js.truthy_string (credential env)) then MissingCredential
  else
    match fetch_result env (request_of env question) with
    | FetchRejected => NetworkFailure
    | FetchResponse r =>
        if negb (response_ok r) then BadStatus (status r)
        else
          match json_body r with
          | None => NotJson
          | Some data =>
              match read_text (uses_anthropic env) data with
              | None => PathThrows
              | Some None => NoText
              | Some (Some v) => if truthy (Some v) then Text v else NoText
              end
          end
    end.

Definition not_configured (env : Env) : string :=
  if uses_anthropic env then anthropic_not_configured else openai_not_configured.

(** What the generator hands back for each outcome. *)
Definition answer_for (env : Env) (o : ProviderOutcome) : JsValue :=
  match o with
  | MissingCredential => JStr (not_configured env)
  | NetworkFailure | BadStatus _ | NotJson | PathThrows => JStr apology
  | NoText => JStr unable
  | Text v => v
  end.

(** The error caught by the generator, for the outcomes that throw. *)
Definition caught_error (env : Env) (o : ProviderOutcome) : option JsError :=
  match o with
  | NetworkFailure => Some NetworkError_
  | BadStatus code =>
      Some (Error_ ((if uses_anthropic env then "Anthropic API error: "
                     else "OpenAI API error: ") +:+ Json.number_to_string code))
  | NotJson => Some SyntaxError_
  | PathThrows => Some TypeError_
  | MissingCredential | NoText | Text _ => None
  end.

Definition provider_log (env : Env) (error : JsError) : Effect :=
  ConsoleError
    ("AI generation error (" +:+ selected_provider (ai_provider (settings env)) +:+ "):")
    error.

Definition generate_effects (env : Env) (question : string) : list Effect :=
  let o := provider_outcome env question in
  CallGenerate question ::
  match o with MissingCredential => [] | _ => [CallFetch (request_of env question)] end ++
  match caught_error env o with Some e => [provider_log env e] | None => [] end.

Definition generated_answer (env : Env) (question : string) : JsValue :=
  answer_for env (provider_outcome env question).

(** [interface OpenAIResponse]: [choices] is an array whose items carry a
    [message] with a string [content]. *)
Definition conforms_OpenAIResponse (data : JsValue) : bool :=
  match property data "choices" with
  | Some (JArr items) =>
      forallb (fun item =>
                 match optional_property (property item "message") "content" with
                 | Some (JStr _) => true
                 | _ => false
                 end) items
  | _ => false
  end.

(** *** Gates and results of a handler run *)

Definition keyword_of (env : Env) : string :=
  triggerKeyword_of (trigger_keyword (settings env)).

(** Gates 1 to 4 for a comment: enabled, not self-authored, keyword present. *)
Definition comment_eligible (env : Env) (c : CommentV2.t) : bool :=
  truthy_bool (auto_reply_enabled (settings env))
  && negb (same_identity (CommentV2.author c) (option_map username (currentUser env)))
  && keyword_present (keyword_of env) (CommentV2.body c).

Definition post_eligible (env : Env) (p : PostV2.t) : bool :=
  truthy_bool (auto_reply_enabled (settings env))
  && negb (same_identity (PostV2.authorId p) (option_map user_id (currentUser env)))
  && keyword_present (keyword_of env) (postContent p).

(** The world after [hIncrBy('stats', field, 1)]. *)
Definition count_processed (field : string) (w : World) : World :=
  {| redis_hashes :=
       <["stats" := <[field := hash_field "stats" field w + 1]>
                      (default ∅ (redis_hashes w !! "stats"))]> (redis_hashes w);
     redis_zsets := redis_zsets w; ticks := ticks w; trace := trace w |}.

(** The effects of generating for [question] and posting the answer on [id],
    up to the outcome of the post. *)
Definition reply_effects (env : Env) (id question : string) : list Effect :=
  generate_effects env question ++
  [CallSubmitComment id (generated_answer env question)].

(** *** Removing the keyword, in the words of the specification *)

(** The code unit below 256 that canonicalizes to [n], in lower case. *)
Definition lower_of_canonical (n : nat) : ascii :=
  match n with
  | 924%nat => ascii_of_nat 181
  | 376%nat => ascii_of_nat 255
  | _ => Js.lower_char (ascii_of_nat n)
  end.

(** [s] starts with [kw] up to letter case. *)
Definition starts_with_ci (kw s : string) : bool :=
  String.prefix (Js.toLowerCase kw) (Js.toLowerCase s).







(** *** Sequences of appends *)

(** One call [storeConversation(userId, question, answer)]. *)
Record Append := { to_user : string; asked : string; answered : string }.

Fixpoint appends (ops : list Append) : M unit :=
  match ops with
  | [] => ret tt
  | op :: rest =>
      storeConversation (to_user op) (asked op) (answered op) ;; appends rest
  end.

(** The entries the calls create, in call order, when the first of them
    takes reading number [tick] of the clock. *)
Fixpoint stamped (time : nat -> Z) (tick : nat) (ops : list Append)
  : list (string * ConversationEntry) :=
  match ops with
  | [] => []
  | op :: rest =>
      (to_user op, {| timestamp := time tick; question := asked op; answer := answered op |})
      :: stamped time (S tick) rest
  end.

Definition entries_of (userId : string) (log : list (string * ConversationEntry))
  : list ConversationEntry :=
  map snd (List.filter (fun x => String.eqb x.1 userId) log).

Definition last_n {A} (n : nat) (l : list A) : list A := drop (length l - n) l.

(** The sorted-set element written for an entry. *)
Definition member_of (e : ConversationEntry) : Z * string :=
  (timestamp e, Json.stringify_entry e).

Definition scores_ascending (l : Redis.ZSet) : Prop :=
  StronglySorted (fun a b => a.1 <= b.1) l.

Definition timestamps_ascending (es : list ConversationEntry) : Prop :=
  StronglySorted (fun a b => timestamp a <= timestamp b) es.

(** The set after [storeConversation]'s insertion, before its trim. *)
Definition inserted (env : Env) (w : World) (userId question answer : string) : Redis.ZSet :=
  let ts := clock env (ticks w) in
  Redis.zadd ts
    (Json.stringify_entry {| timestamp := ts; question := question; answer := answer |})
    (zset_at (conversation_key userId) w).

(** *** Invariants of the store *)

(** [storeConversation]'s trim of the set it has just grown. *)
Definition trim_to_five (l : Redis.ZSet) : Redis.ZSet :=
  if 5 <? Redis.zcard l then Redis.zremrangebyrank 0 (Redis.zcard l - 6) l else l.

(** A member written by [storeConversation]. *)
Definition is_image (x : Z * string) : Prop := exists e, x = member_of e.

(** Every set holds only members written by [storeConversation], in
    ascending score order. *)
Definition well_stored (w : World) : Prop :=
  forall key, Forall is_image (zset_at key w) /\ scores_ascending (zset_at key w).

(** The store reflects the appends in [log], all made before the next
    reading of the clock. *)
Definition reflects (env : Env) (log : list (string * ConversationEntry)) (w : World) : Prop :=
  (forall u, zset_at (conversation_key u) w
             = map member_of (last_n 5 (entries_of u log))) /\
  Forall (fun x => timestamp x.2 < clock env (ticks w)) log.

(** *** Patterns without syntax characters *)

(** The atoms of a keyword read literally. *)
Fixpoint literal_atoms (kw : string) : list Js.Atom :=
  match kw with
  | EmptyString => []
  | String c kw' => Js.PatternCharacter c :: literal_atoms kw'
  end.

(** A continuation that does not start with a sign or a digit. *)
Definition ends_number (k : string) : bool :=
  match k with
  | EmptyString => true
  | String c _ => negb (Json.is_number_char c)
  end.

(** *** Scenario: the default configuration with an OpenAI key *)

Module Scenario.

Definition agent : User := {| user_id := "t2_bot"; username := "redditor-bot" |}.

Definition completion (text : JsValue) : JsValue :=
  JObj [("choices", JArr [JObj [("message", JObj [("role", JStr "assistant");
                                                  ("content", text)])]])].

Definition make_env (enabled : bool) (keyword : string) (payload : JsValue)
    (time : nat -> Z) : Env :=
  {| settings := {| openai_key := Some "sk-test"; anthropic_key := None;
                    ai_provider := None; auto_reply_enabled := Some enabled;
                    trigger_keyword := Some keyword |};
     currentUser := Some agent;
     fetch_result := fun _ => FetchResponse {| status := 200; json_body := Some payload |};
     submit_succeeds := fun _ _ => true;
     clock := time;
     regexp_oracle := fun _ => None |}.

Definition ticking (n : nat) : Z := 1700000000000 + Z.of_nat n.

Definition env : Env :=
  make_env true "!ask" (completion (JStr "Plants turn light into sugar.")) ticking.

Definition env_off : Env :=
  make_env false "!ask" (completion (JStr "Plants turn light into sugar.")) ticking.


(** A clock whose first two readings fall in the same millisecond. *)
Definition coarse (n : nat) : Z := 1700000000000 + Z.of_nat (Nat.pred n).

Definition env_coarse : Env :=
  make_env true "!ask" (completion (JStr "Plants turn light into sugar.")) coarse.

Definition six_appends : list Append :=
  [ {| to_user := "alice"; asked := "b"; answered := "1" |};
    {| to_user := "alice"; asked := "a"; answered := "2" |};
    {| to_user := "alice"; asked := "c"; answered := "3" |};
    {| to_user := "alice"; asked := "d"; answered := "4" |};
    {| to_user := "alice"; asked := "e"; answered := "5" |};
    {| to_user := "alice"; asked := "f"; answered := "6" |} ].

Definition env_anthropic : Env :=
  {| settings := {| openai_key := None; anthropic_key := Some "sk-ant-test";
                    ai_provider := Some ["anthropic"]; auto_reply_enabled := Some true;
                    trigger_keyword := None |};
     currentUser := Some agent;
     fetch_result := fun _ =>
       FetchResponse {| status := 200;
                        json_body := Some (JObj [("content",
                                           JArr [JObj [("text", JStr "Hello.")]])]) |};
     submit_succeeds := fun _ _ => true;
     clock := ticking;
     regexp_oracle := fun _ => None |}.

Definition a_comment (text : string) : CommentV2.t :=
  {| CommentV2.id := "t1_c1"; CommentV2.body := text; CommentV2.author := "alice" |}.

Definition a_post (heading text : string) : PostV2.t :=
  {| PostV2.id := "t3_p1"; PostV2.title := heading; PostV2.selftext := Some text;
     PostV2.authorId := "t2_alice" |}.

End Scenario.

(** ** services/scheduler.ts: the daily summary *)




(** ** Vocabulary of the further properties *)

(** How many effects of a kind a run has added. *)
Definition calls (kind : Effect -> bool) (effs : list Effect) : nat :=
  length (List.filter kind effs).

(** The environment with another [trigger_keyword] setting. *)
Definition with_keyword (keyword : option string) (env : Env) : Env :=
  {| settings := {| openai_key := openai_key (settings env);
                    anthropic_key := anthropic_key (settings env);
                    ai_provider := ai_provider (settings env);
                    auto_reply_enabled := auto_reply_enabled (settings env);
                    trigger_keyword := keyword |};
     currentUser := currentUser env;
     fetch_result := fetch_result env;
     submit_succeeds := submit_succeeds env;
     clock := clock env;
     regexp_oracle := regexp_oracle env |}.

(** The environment with another [ai_provider] setting. *)
Definition with_provider (provider : option (list string)) (env : Env) : Env :=
  {| settings := {| openai_key := openai_key (settings env);
                    anthropic_key := anthropic_key (settings env);
                    ai_provider := provider;
                    auto_reply_enabled := auto_reply_enabled (settings env);
                    trigger_keyword := trigger_keyword (settings env) |};
     currentUser := currentUser env;
     fetch_result := fetch_result env;
     submit_succeeds := submit_succeeds env;
     clock := clock env;
     regexp_oracle := regexp_oracle env |}.

(** The reply a comment handler posts for an extracted question. *)
Definition comment_reply (env : Env) (question : string) : JsValue :=
  if Js.truthy_string question then generated_answer env question
  else JStr please_provide.

(** The members of a set are pairwise distinct. *)
Definition members_distinct (l : Redis.ZSet) : Prop := List.NoDup (map snd l).

(** *** Further scenarios *)

Module Cases.

(** An environment in which every [submitComment] is rejected. *)
Definition env_rejecting : Env :=
  {| settings := settings Scenario.env;
     currentUser := currentUser Scenario.env;
     fetch_result := fetch_result Scenario.env;
     submit_succeeds := fun _ _ => false;
     clock := clock Scenario.env;
     regexp_oracle := regexp_oracle Scenario.env |}.

(** A clock that was set back before the readings of [Scenario.ticking]. *)
Definition env_set_back : Env :=
  Scenario.make_env true "!ask" (Scenario.completion (JStr "ok"))
    (fun _ => 1600000000000).

(** A text with a quote, a backslash, a line feed and a control character. *)
Definition tricky : string :=
  String Json.dquote (String Json.backslash (String (ascii_of_nat 10)
    (String (ascii_of_nat 1) "end"))).

Definition five_appended : World :=
  (appends (take 5 Scenario.six_appends) Scenario.env initial_world).2.

(** Code units above 127: the no-break space U+00A0, and the letter [E]
    with acute in upper case (U+00C9) and in lower case (U+00E9). *)
Definition nbsp : ascii := ascii_of_nat 160.
Definition E_acute : ascii := ascii_of_nat 201.
Definition e_acute : ascii := ascii_of_nat 233.

(** The keyword [!ask] followed by a no-break space. *)
Definition ask_nbsp : string := "!ask" +:+ String nbsp "".

(** An environment whose keyword is the upper-case letter alone. *)
Definition env_accented : Env :=
  Scenario.make_env true (String E_acute "")
    (Scenario.completion (JStr "Plants turn light into sugar.")) Scenario.ticking.

End Cases.

(** ** Proof automation *)

Arguments truthy : simpl never.
Arguments generated_answer : simpl never.

(** Unfold the monad and the collaborators that only read or log. *)
Ltac run :=
  unfold bind, ret, throw, try_catch, settings_get, reddit_getCurrentUser,
    console_log, console_error, emit in *; simpl in *.

(** Two worlds that differ in how their traces are bracketed. *)
Ltac same_world :=
  simpl; rewrite <- ?app_assoc, ?app_nil_r; simpl; rewrite <- ?app_assoc; reflexivity.

(** ** Sanity checks of the primitives *)

Example includes_ci_ASK :
  Js.includes (Js.toLowerCase "hey !ASK me") (Js.toLowerCase "!ask") = true.
Proof. reflexivity. Qed.

Example trim_example : Js.trim "  what is  x 	" = "what is  x".
Proof. reflexivity. Qed.

Example replace_example :
  option_map (fun a => Js.replace_all a "!Ask what !ASK now") (Js.parse_atoms "!ask")
  = Some " what  now".
Proof. reflexivity. Qed.

Example stringify_example :
  Json.parse_entry (Json.stringify_entry {| timestamp := 1700000000123; question := "a\b
c"; answer := "" |}) = Some {| timestamp := 1700000000123; question := "a\b
c"; answer := "" |}.
Proof. vm_compute. reflexivity. Qed.

(** [trim] removes the no-break space like the other white space. *)
Example trim_no_break_space :
  Js.trim (String Cases.nbsp "what" +:+ String Cases.nbsp " ") = "what".
Proof. reflexivity. Qed.

(** [toLowerCase] and the [i] flag fold the letters above 127 as well. *)
Example lower_case_above_127 :
  Js.toLowerCase (String Cases.E_acute "T") = String Cases.e_acute "t" /\
  Js.atom_matches (Js.PatternCharacter Cases.E_acute) Cases.e_acute = true /\
  Js.atom_matches (Js.PatternCharacter (ascii_of_nat 215)) (ascii_of_nat 247) = false.
Proof. repeat split; reflexivity. Qed.

(** A comment made of the keyword and a no-break space has an empty
    question: the fixed prompt is posted and nothing is generated. *)
Example keyword_and_no_break_space_is_prompted :
  extract_question Scenario.env "!ask" Cases.ask_nbsp = Some "" /\
  CommentCreate_onEvent {| comment := Some (Scenario.a_comment Cases.ask_nbsp) |}
    Scenario.env initial_world
  = (Returned tt,
     add_effects initial_world [CallSubmitComment "t1_c1" (JStr please_provide)]).
Proof. split; vm_compute; reflexivity. Qed.

(** Under the keyword [E] with acute, a comment that starts with the
    lower-case letter passes the gate, the letter is removed and the question
    [what] is answered and counted. *)
Example accented_keyword_matches_lower_case :
  let body := String Cases.e_acute " what" in
  keyword_present (String Cases.E_acute "") body = true /\
  extract_question Cases.env_accented (String Cases.E_acute "") body = Some "what" /\
  exists w',
    CommentCreate_onEvent {| comment := Some (Scenario.a_comment body) |}
      Cases.env_accented initial_world = (Returned tt, w') /\
    trace w' = [CallGenerate "what";
                CallFetch (openai_request "sk-test" "what");
                CallSubmitComment "t1_c1" (JStr "Plants turn light into sugar.");
                ConsoleLog "Replied to comment t1_c1 with AI response"] /\
    hash_field "stats" "comments_processed" w' = 1.
Proof.
  cbv zeta. split; [reflexivity|]. split; [reflexivity|].
  eexists. split; [vm_compute; reflexivity|]. split; reflexivity.
Qed.

(** ** The effect monad *)


(** ** The feature gate and the self-authorship gate *)

(** C4. With [auto_reply_enabled] false (or unset) both handlers return at
    once and leave the world as it was: nothing is added to the trace, so
    neither the generator nor [submitComment] is called, whatever the text
    of the event. *)
Theorem feature_gate_off_no_calls (env : Env) (w : World) :
  auto_reply_enabled (settings env) <> Some true ->
  (forall ev, PostSubmit_onEvent ev env w = (Returned tt, w)) /\
  (forall ev, CommentCreate_onEvent ev env w = (Returned tt, w)).
Proof.
  intros Hoff.
  assert (Hgate : truthy_bool (auto_reply_enabled (settings env)) = false).
  { destruct (auto_reply_enabled (settings env)) as [[|]|]; simpl; congruence. }
  split; intros ev; unfold PostSubmit_onEvent, CommentCreate_onEvent; run;
    by rewrite Hgate.
Qed.

Lemma feature_gate_off_no_calls_witness :
  PostSubmit_onEvent {| post := Some (Scenario.a_post "!ask" "what is photosynthesis") |}
    Scenario.env_off initial_world = (Returned tt, initial_world) /\
  CommentCreate_onEvent {| comment := Some (Scenario.a_comment "!ask what is photosynthesis") |}
    Scenario.env_off initial_world = (Returned tt, initial_world).
Proof.
  assert (Hoff : auto_reply_enabled (settings Scenario.env_off) <> Some true)
    by (simpl; discriminate).
  destruct (feature_gate_off_no_calls Scenario.env_off initial_world Hoff) as [Hp Hc].
  split; [apply Hp | apply Hc].
Defined.

(** C7. An event whose author is the agent itself is dropped at the third
    gate: the handler returns with the world unchanged, so the keyword is
    never looked at and neither the generator nor [submitComment] is
    called.  Posts compare [authorId] with the agent's id, comments compare
    [author] with the agent's username. *)
Theorem self_authored_event_no_reply (env : Env) (w : World) (agent : User) :
  currentUser env = Some agent ->
  (forall p, PostV2.authorId p = user_id agent ->
     PostSubmit_onEvent {| post := Some p |} env w = (Returned tt, w)) /\
  (forall c, CommentV2.author c = username agent ->
     CommentCreate_onEvent {| comment := Some c |} env w = (Returned tt, w)).
Proof.
  intros Hagent.
  split; intros x Hauthor; unfold PostSubmit_onEvent, CommentCreate_onEvent; run;
    destruct (truthy_bool _); simpl; try reflexivity;
    rewrite Hagent; simpl; rewrite Hauthor, String.eqb_refl; reflexivity.
Qed.

Lemma self_authored_event_no_reply_witness :
  PostSubmit_onEvent
    {| post := Some {| PostV2.id := "t3_p2"; PostV2.title := "!ask who am I";
                       PostV2.selftext := None; PostV2.authorId := "t2_bot" |} |}
    Scenario.env initial_world = (Returned tt, initial_world) /\
  CommentCreate_onEvent
    {| comment := Some {| CommentV2.id := "t1_c2"; CommentV2.body := "!ask who am I";
                          CommentV2.author := "redditor-bot" |} |}
    Scenario.env initial_world = (Returned tt, initial_world).
Proof.
  destruct (self_authored_event_no_reply Scenario.env initial_world Scenario.agent eq_refl)
    as [Hp Hc].
  split; [by apply Hp | by apply Hc].
Defined.

(** ** The keyword gate *)

Lemma app_cons c a b : String c a +:+ b = String c (a +:+ b).
Proof. reflexivity. Qed.

Lemma app_empty b : "" +:+ b = b.
Proof. reflexivity. Qed.

Lemma prefix_spec k s : String.prefix k s = true <-> exists suf, s = k +:+ suf.
Proof.
  revert s; induction k as [|c k IH]; intros s; simpl.
  - split; [intros _; by exists s | by destruct s].
  - destruct s as [|d s].
    + split; [done | intros [suf H]; rewrite app_cons in H; discriminate].
    + simpl. destruct (ascii_dec c d) as [->|Hne].
      * rewrite IH. split; intros [suf H]; exists suf.
        -- by rewrite app_cons, H.
        -- rewrite app_cons in H. by injection H.
      * split; [done | intros [suf H]; rewrite app_cons in H; congruence].
Qed.

Lemma includes_spec s k :
  Js.includes s k = true <-> exists pre suf, s = pre +:+ k +:+ suf.
Proof.
  induction s as [|c s IH].
  - change (Js.includes "" k) with (String.prefix k "" || false).
    rewrite orb_false_r, prefix_spec. split.
    + intros [suf H]. by exists "", suf.
    + intros [[|x pre] [suf H]]; [by exists suf | rewrite app_cons in H; discriminate].
  - change (Js.includes (String c s) k)
      with (String.prefix k (String c s) || Js.includes s k).
    rewrite orb_true_iff, prefix_spec, IH. split.
    + intros [[suf H] | (pre & suf & H)].
      * by exists "", suf.
      * exists (String c pre), suf. by rewrite app_cons, H.
    + intros ([|x pre] & suf & H).
      * left. by exists suf.
      * right. rewrite app_cons in H. injection H as -> ->. by exists pre, suf.
Qed.

Lemma string_map_app f a b :
  Js.string_map f (a +:+ b) = Js.string_map f a +:+ Js.string_map f b.
Proof. induction a as [|c a IH]; [done|]. rewrite !app_cons. simpl. by rewrite IH, app_cons. Qed.

Lemma string_map_split f s a b :
  Js.string_map f s = a +:+ b ->
  exists s1 s2, s = s1 +:+ s2 /\ Js.string_map f s1 = a /\ Js.string_map f s2 = b.
Proof.
  revert s; induction a as [|c a IH]; intros s H.
  - by exists "", s.
  - destruct s as [|d s]; [discriminate|]. rewrite app_cons in H. simpl in H.
    injection H as Hc H. destruct (IH _ H) as (s1 & s2 & -> & H1 & H2).
    exists (String d s1), s2. simpl. by rewrite Hc, H1.
Qed.

Lemma keyword_present_spec kw text :
  keyword_present kw text = true <->
  exists pre occ suf, text = pre +:+ occ +:+ suf /\ Js.toLowerCase occ = Js.toLowerCase kw.
Proof.
  unfold keyword_present, Js.toLowerCase. rewrite includes_spec. split.
  - intros (P & S & H).
    destruct (string_map_split _ _ _ _ H) as (pre & rest & -> & _ & H2).
    destruct (string_map_split _ _ _ _ H2) as (occ & suf & -> & H3 & _).
    by exists pre, occ, suf.
  - intros (pre & occ & suf & -> & H).
    exists (Js.string_map Js.lower_char pre), (Js.string_map Js.lower_char suf).
    by rewrite !string_map_app, H.
Qed.

(** ** The response generator *)

Lemma generateAIResponse_run (env : Env) (q : string) (w : World) :
  generateAIResponse q env w =
  (Returned (generated_answer env q), add_effects w (generate_effects env q)).
Proof.
  unfold generateAIResponse, generated_answer, generate_effects, answer_for,
    caught_error, provider_outcome, request_of, credential, not_configured, provider_log,
    generateAnthropicResponse, generateOpenAIResponse, fetch, response_json,
    get_property, get_element0, add_effects.
  run.
  change (String.eqb (selected_provider (ai_provider (settings env))) "anthropic")
    with (uses_anthropic env).
  destruct (uses_anthropic env); simpl.
  - destruct (Js.truthy_string (default "" (anthropic_key (settings env)))); [|same_world].
    simpl. destruct (fetch_result env _) as [|r]; [same_world|].
    simpl. destruct (response_ok r); [|same_world].
    simpl. destruct (json_body r) as [data|]; [|same_world].
    unfold read_text.
    destruct data as [| | | | |fields]; try same_world.
    simpl. destruct (lookup_field "content" fields) as [[]|]; try same_world.
    all: unfold js_or; simpl;
      match goal with |- context [optional_property ?a ?b] =>
        destruct (optional_property a b) as [v|]; [|same_world] end;
      destruct (truthy (Some v)); same_world.
  - destruct (Js.truthy_string (default "" (openai_key (settings env)))); [|same_world].
    simpl. destruct (fetch_result env _) as [|r]; [same_world|].
    simpl. destruct (response_ok r); [|same_world].
    simpl. destruct (json_body r) as [data|]; [|same_world].
    unfold read_text.
    destruct data as [| | | | |fields]; try same_world.
    simpl. destruct (lookup_field "choices" fields) as [[]|]; try same_world.
    all: unfold js_or; simpl;
      match goal with |- context [optional_property (optional_property ?a ?b) ?c] =>
        destruct (optional_property (optional_property a b) c) as [v|]; [|same_world] end;
      destruct (truthy (Some v)); same_world.
Qed.

(** ** Runs of the two handlers past the keyword gate *)

Lemma comment_eligible_run (env : Env) (w : World) (c : CommentV2.t) :
  comment_eligible env c = true ->
  CommentCreate_onEvent {| comment := Some c |} env w =
  match extract_question env (keyword_of env) (CommentV2.body c) with
  | None =>
      (Returned tt,
       add_effects w [ConsoleError "Error in CommentCreate trigger:" SyntaxError_])
  | Some question =>
      if negb (Js.truthy_string question) then
        (Returned tt,
         add_effects w
           (CallSubmitComment (CommentV2.id c) (JStr please_provide) ::
            if submit_succeeds env (CommentV2.id c) (JStr please_provide) then []
            else [ConsoleError "Error in CommentCreate trigger:" SubmitError_]))
      else if submit_succeeds env (CommentV2.id c) (generated_answer env question) then
        (Returned tt,
         count_processed "comments_processed"
           (add_effects w
              (reply_effects env (CommentV2.id c) question ++
               [ConsoleLog ("Replied to comment " +:+ CommentV2.id c
                            +:+ " with AI response")])))
      else
        (Returned tt,
         add_effects w
           (reply_effects env (CommentV2.id c) question ++
            [ConsoleError "Error in CommentCreate trigger:" SubmitError_]))
  end.
Proof.
  unfold comment_eligible, keyword_of. rewrite !andb_true_iff, negb_true_iff.
  intros [[Hon Hself] Hkw].
  unfold CommentCreate_onEvent, RegExp_new, extract_question, reddit_submitComment,
    redis_hIncrBy, count_processed, reply_effects. run.
  rewrite Hon. simpl. rewrite Hself, Hkw. simpl.
  destruct (compile_regexp env _) as [re|]; simpl; [|unfold add_effects; same_world].
  destruct (Js.truthy_string _); simpl.
  - rewrite generateAIResponse_run. simpl.
    destruct (submit_succeeds env _ _);
      unfold add_effects, hash_field, generate_effects; same_world.
  - destruct (submit_succeeds env _ _); unfold add_effects; same_world.
Qed.

Lemma post_eligible_run (env : Env) (w : World) (p : PostV2.t) :
  post_eligible env p = true ->
  PostSubmit_onEvent {| post := Some p |} env w =
  match extract_question env (keyword_of env) (postContent p) with
  | None =>
      (Returned tt,
       add_effects w [ConsoleError "Error in PostSubmit trigger:" SyntaxError_])
  | Some question =>
      if submit_succeeds env (PostV2.id p) (generated_answer env question) then
        (Returned tt,
         count_processed "posts_processed"
           (add_effects w
              (reply_effects env (PostV2.id p) question ++
               [ConsoleLog ("Replied to post " +:+ PostV2.id p +:+ " with AI response")])))
      else
        (Returned tt,
         add_effects w
           (reply_effects env (PostV2.id p) question ++
            [ConsoleError "Error in PostSubmit trigger:" SubmitError_]))
  end.
Proof.
  unfold post_eligible, keyword_of. rewrite !andb_true_iff, negb_true_iff.
  intros [[Hon Hself] Hkw].
  unfold PostSubmit_onEvent, RegExp_new, extract_question, reddit_submitComment,
    redis_hIncrBy, count_processed, reply_effects. run.
  rewrite Hon. simpl. rewrite Hself, Hkw. simpl.
  destruct (compile_regexp env _) as [re|]; simpl; [|unfold add_effects; same_world].
  rewrite generateAIResponse_run. simpl.
  destruct (submit_succeeds env _ _);
    unfold add_effects, hash_field, generate_effects; same_world.
Qed.

(** ** C3: outcomes of the generator *)

(** C8. The keyword gate is a case-insensitive substring test on the raw
    text (for a post the title, a space and the body; for a comment the
    body): it holds exactly when some stretch of the text equals the keyword
    up to letter case.  When it fails, the handler returns with the world
    unchanged, so no reply is made.  When the text holds the keyword in any
    letter case, an enabled handler on an event of another author goes past
    the gate: it leaves effects, and when the pattern compiles it calls
    [submitComment] on the event.  In particular, under the keyword [!ask] a
    text that contains [!ASK] or [!Ask] is replied to. *)
Theorem keyword_gate_case_insensitive :
  (forall kw text,
     keyword_present kw text = true <->
     exists pre occ suf,
       text = pre +:+ occ +:+ suf /\ Js.toLowerCase occ = Js.toLowerCase kw) /\
  (forall env w p,
     keyword_present (triggerKeyword_of (trigger_keyword (settings env))) (postContent p)
       = false ->
     PostSubmit_onEvent {| post := Some p |} env w = (Returned tt, w)) /\
  (forall env w c,
     keyword_present (triggerKeyword_of (trigger_keyword (settings env))) (CommentV2.body c)
       = false ->
     CommentCreate_onEvent {| comment := Some c |} env w = (Returned tt, w)) /\
  (forall pre suf,
     keyword_present "!ask" (pre +:+ "!ASK" +:+ suf) = true /\
     keyword_present "!ask" (pre +:+ "!Ask" +:+ suf) = true) /\
  (forall env w c pre occ suf,
     truthy_bool (auto_reply_enabled (settings env)) = true ->
     same_identity (CommentV2.author c) (option_map username (currentUser env)) = false ->
     CommentV2.body c = pre +:+ occ +:+ suf ->
     Js.toLowerCase occ
       = Js.toLowerCase (triggerKeyword_of (trigger_keyword (settings env))) ->
     exists effs,
       trace (CommentCreate_onEvent {| comment := Some c |} env w).2 = trace w ++ effs /\
       effs <> [] /\
       (compile_regexp env (triggerKeyword_of (trigger_keyword (settings env))) <> None ->
        exists text, In (CallSubmitComment (CommentV2.id c) text) effs)) /\
  (forall env w p pre occ suf,
     truthy_bool (auto_reply_enabled (settings env)) = true ->
     same_identity (PostV2.authorId p) (option_map user_id (currentUser env)) = false ->
     postContent p = pre +:+ occ +:+ suf ->
     Js.toLowerCase occ
       = Js.toLowerCase (triggerKeyword_of (trigger_keyword (settings env))) ->
     exists effs,
       trace (PostSubmit_onEvent {| post := Some p |} env w).2 = trace w ++ effs /\
       effs <> [] /\
       (compile_regexp env (triggerKeyword_of (trigger_keyword (settings env))) <> None ->
        exists text, In (CallSubmitComment (PostV2.id p) text) effs)) /\
  (forall env w c pre suf,
     truthy_bool (auto_reply_enabled (settings env)) = true ->
     same_identity (CommentV2.author c) (option_map username (currentUser env)) = false ->
     triggerKeyword_of (trigger_keyword (settings env)) = "!ask" ->
     CommentV2.body c = pre +:+ "!ASK" +:+ suf \/
     CommentV2.body c = pre +:+ "!Ask" +:+ suf ->
     exists text,
       In (CallSubmitComment (CommentV2.id c) text)
          (trace (CommentCreate_onEvent {| comment := Some c |} env w).2)) /\
  (forall env w p pre suf,
     truthy_bool (auto_reply_enabled (settings env)) = true ->
     same_identity (PostV2.authorId p) (option_map user_id (currentUser env)) = false ->
     triggerKeyword_of (trigger_keyword (settings env)) = "!ask" ->
     postContent p = pre +:+ "!ASK" +:+ suf \/
     postContent p = pre +:+ "!Ask" +:+ suf ->
     exists text,
       In (CallSubmitComment (PostV2.id p) text)
          (trace (PostSubmit_onEvent {| post := Some p |} env w).2)).
Proof.
  assert (Hcomment : forall env w c pre occ suf,
     truthy_bool (auto_reply_enabled (settings env)) = true ->
     same_identity (CommentV2.author c) (option_map username (currentUser env)) = false ->
     CommentV2.body c = pre +:+ occ +:+ suf ->
     Js.toLowerCase occ = Js.toLowerCase (keyword_of env) ->
     exists effs,
       trace (CommentCreate_onEvent {| comment := Some c |} env w).2 = trace w ++ effs /\
       effs <> [] /\
       (compile_regexp env (keyword_of env) <> None ->
        exists text, In (CallSubmitComment (CommentV2.id c) text) effs)).
  { intros env w c pre occ suf Hon Hself Hbody Hocc.
    assert (Hel : comment_eligible env c = true).
    { unfold comment_eligible. rewrite Hon, Hself. simpl.
      apply keyword_present_spec. by exists pre, occ, suf. }
    rewrite (comment_eligible_run _ _ _ Hel). unfold extract_question, reply_effects.
    destruct (compile_regexp env (keyword_of env)) as [re|]; cbn [option_map].
    - set (q := Js.trim _).
      destruct (Js.truthy_string q); cbn [negb];
        [destruct (submit_succeeds env _ (generated_answer env q))|];
        eexists; cbn [snd trace add_effects count_processed];
        (split; [reflexivity|]); (split; [by destruct (generate_effects env q)|]);
        intros _; eexists; rewrite ?in_app_iff; simpl; eauto.
    - eexists. cbn [snd trace add_effects]. split; [reflexivity|]. split; done. }
  assert (Hpost : forall env w p pre occ suf,
     truthy_bool (auto_reply_enabled (settings env)) = true ->
     same_identity (PostV2.authorId p) (option_map user_id (currentUser env)) = false ->
     postContent p = pre +:+ occ +:+ suf ->
     Js.toLowerCase occ = Js.toLowerCase (keyword_of env) ->
     exists effs,
       trace (PostSubmit_onEvent {| post := Some p |} env w).2 = trace w ++ effs /\
       effs <> [] /\
       (compile_regexp env (keyword_of env) <> None ->
        exists text, In (CallSubmitComment (PostV2.id p) text) effs)).
  { intros env w p pre occ suf Hon Hself Hbody Hocc.
    assert (Hel : post_eligible env p = true).
    { unfold post_eligible. rewrite Hon, Hself. simpl.
      apply keyword_present_spec. by exists pre, occ, suf. }
    rewrite (post_eligible_run _ _ _ Hel). unfold extract_question, reply_effects.
    destruct (compile_regexp env (keyword_of env)) as [re|]; cbn [option_map].
    - set (q := Js.trim _).
      destruct (submit_succeeds env _ (generated_answer env q));
        eexists; cbn [snd trace add_effects count_processed];
        (split; [reflexivity|]); (split; [by destruct (generate_effects env q)|]);
        intros _; eexists; rewrite ?in_app_iff; simpl; eauto.
    - eexists. cbn [snd trace add_effects]. split; [reflexivity|]. split; done. }
  split; [exact keyword_present_spec|].
  split.
  { intros env w p H. unfold PostSubmit_onEvent; run.
    destruct (truthy_bool _); simpl; [|done].
    destruct (same_identity _ _); [done|]. by rewrite H. }
  split.
  { intros env w c H. unfold CommentCreate_onEvent; run.
    destruct (truthy_bool _); simpl; [|done].
    destruct (same_identity _ _); [done|]. by rewrite H. }
  split.
  { intros pre suf. split; apply keyword_present_spec.
    + by exists pre, "!ASK", suf.
    + by exists pre, "!Ask", suf. }
  split; [exact Hcomment|]. split; [exact Hpost|]. split.
  - intros env w c pre suf Hon Hself Hkw Hbody.
    assert (exists occ, CommentV2.body c = pre +:+ occ +:+ suf /\
                        Js.toLowerCase occ = Js.toLowerCase (keyword_of env))
      as (occ & Hocc & Hlow).
    { unfold keyword_of. rewrite Hkw. destruct Hbody; [by exists "!ASK" | by exists "!Ask"]. }
    destruct (Hcomment env w c pre occ suf Hon Hself Hocc Hlow) as (effs & -> & _ & Hsub).
    destruct Hsub as (text & Hin); [unfold keyword_of; by rewrite Hkw|].
    exists text. apply in_app_iff. by right.
  - intros env w p pre suf Hon Hself Hkw Hbody.
    assert (exists occ, postContent p = pre +:+ occ +:+ suf /\
                        Js.toLowerCase occ = Js.toLowerCase (keyword_of env))
      as (occ & Hocc & Hlow).
    { unfold keyword_of. rewrite Hkw. destruct Hbody; [by exists "!ASK" | by exists "!Ask"]. }
    destruct (Hpost env w p pre occ suf Hon Hself Hocc Hlow) as (effs & -> & _ & Hsub).
    destruct Hsub as (text & Hin); [unfold keyword_of; by rewrite Hkw|].
    exists text. apply in_app_iff. by right.
Qed.

Lemma keyword_gate_case_insensitive_witness :
  PostSubmit_onEvent {| post := Some (Scenario.a_post "hello" "no keyword here") |}
    Scenario.env initial_world = (Returned tt, initial_world) /\
  CommentCreate_onEvent {| comment := Some (Scenario.a_comment "ask! what is this") |}
    Scenario.env initial_world = (Returned tt, initial_world) /\
  keyword_present "!ask" "hey !ASK me" = true /\
  (exists text,
     In (CallSubmitComment "t1_c1" text)
        (trace (CommentCreate_onEvent
                  {| comment := Some (Scenario.a_comment "!ASK what is photosynthesis") |}
                  Scenario.env initial_world).2)) /\
  (exists text,
     In (CallSubmitComment "t3_p1" text)
        (trace (PostSubmit_onEvent
                  {| post := Some (Scenario.a_post "A question" "!Ask why is the sky blue") |}
                  Scenario.env initial_world).2)).
Proof.
  destruct keyword_gate_case_insensitive as (Hspec & Hp & Hc & _ & _ & _ & Hask & Hpask).
  split; [by apply Hp|]. split; [by apply Hc|]. split.
  { apply Hspec. by exists "hey ", "!ASK", " me". }
  split.
  - apply (Hask Scenario.env initial_world
             (Scenario.a_comment "!ASK what is photosynthesis")
             "" " what is photosynthesis"); try reflexivity. by left.
  - apply (Hpask Scenario.env initial_world
             (Scenario.a_post "A question" "!Ask why is the sky blue")
             "A question " " why is the sky blue"); try reflexivity. by right.
Defined.

(** C3 (amended). [generateAIResponse] always returns, whatever the provider
    does.  Without a credential it returns the provider's "not configured"
    message and makes no network call.  When the call throws (rejected
    [fetch], non-2xx status, a body that is not JSON, a payload on which the
    text path cannot be read) it returns the apology and logs one error that
    names the provider.  A payload that parses but holds nothing truthy at
    the text path yields "Unable to generate response." and no log; otherwise
    the value found at the text path is returned. *)
Theorem generate_is_total_by_outcome (env : Env) (q : string) (w : World) :
  generateAIResponse q env w =
    (Returned (generated_answer env q), add_effects w (generate_effects env q)) /\
  (provider_outcome env q = MissingCredential ->
     generated_answer env q = JStr (not_configured env) /\
     generate_effects env q = [CallGenerate q]) /\
  (forall e, caught_error env (provider_outcome env q) = Some e ->
     generated_answer env q = JStr apology /\
     generate_effects env q =
       [CallGenerate q; CallFetch (request_of env q); provider_log env e]) /\
  (provider_outcome env q = NoText ->
     generated_answer env q = JStr unable /\
     generate_effects env q = [CallGenerate q; CallFetch (request_of env q)]) /\
  (forall v, provider_outcome env q = Text v ->
     generated_answer env q = v /\
     generate_effects env q = [CallGenerate q; CallFetch (request_of env q)]).
Proof.
  split; [apply generateAIResponse_run|].
  unfold generated_answer, generate_effects.
  destruct (provider_outcome env q); simpl; repeat split; intros; try discriminate;
    try congruence.
Qed.

Lemma generate_is_total_by_outcome_witness :
  generateAIResponse "hi" (Scenario.make_env true "!ask" JNull Scenario.ticking)
    initial_world =
  (Returned (JStr apology),
   add_effects initial_world
     [CallGenerate "hi";
      CallFetch (openai_request "sk-test" "hi");
      ConsoleError "AI generation error (openai):" TypeError_]).
Proof.
  pose proof (generate_is_total_by_outcome
                (Scenario.make_env true "!ask" JNull Scenario.ticking) "hi" initial_world)
    as (Hrun & _ & Hthrow & _).
  destruct (Hthrow TypeError_ eq_refl) as [Ha He].
  rewrite Hrun, Ha, He. reflexivity.
Defined.

(** C3, as stated, fails on a malformed payload that can still be read: a
    choice without [message] is answered with "Unable to generate response."
    and nothing is logged; a [content] that is a number is returned as such. *)
Lemma malformed_payload_not_apology :
  let incomplete := JObj [("choices", JArr [JObj []])] in
  let env := Scenario.make_env true "!ask" incomplete Scenario.ticking in
  let r := generateAIResponse "hi" env initial_world in
  conforms_OpenAIResponse incomplete = false /\
  r.1 = Returned (JStr unable) /\
  r.1 <> Returned (JStr apology) /\
  Forall (fun e => is_console_error e = false) (trace r.2) /\
  (generateAIResponse "hi"
     (Scenario.make_env true "!ask" (Scenario.completion (JNum 42)) Scenario.ticking)
     initial_world).1 = Returned (JNum 42).
Proof.
  vm_compute. repeat split; try reflexivity; try discriminate.
  repeat constructor.
Qed.

(** ** C9: the request limits *)

(** C9. The OpenAI request carries [max_tokens: 500] and
    [temperature: 0.7].  The Anthropic request carries [max_tokens: 500] but
    no [temperature] property, and it is the request a generation with the
    Anthropic provider sends. *)
Theorem anthropic_request_has_no_temperature (env : Env) (q : string) (w : World) :
  uses_anthropic env = true ->
  Js.truthy_string (credential env) = true ->
  (exists rest,
     trace (generateAIResponse q env w).2 =
       trace w ++ CallGenerate q :: CallFetch (anthropic_request (credential env) q) :: rest) /\
  property (body (anthropic_request (credential env) q)) "max_tokens" = Some (JNum 500) /\
  property (body (anthropic_request (credential env) q)) "temperature" = None /\
  property (body (openai_request (credential env) q)) "max_tokens" = Some (JNum 500) /\
  property (body (openai_request (credential env) q)) "temperature" = Some (JNum (7 # 10)).
Proof.
  intros Hanth Hkey. split; [|by repeat split].
  rewrite generateAIResponse_run. unfold generate_effects, provider_outcome, request_of.
  rewrite Hanth, Hkey. simpl.
  destruct (fetch_result env _) as [|r]; [by eexists|].
  destruct (negb (response_ok r)); [by eexists|].
  destruct (json_body r) as [data|]; [|by eexists].
  destruct (read_text true data) as [[v|]|]; try by eexists.
  destruct (truthy (Some v)); by eexists.
Qed.

Lemma anthropic_request_has_no_temperature_witness :
  property (body (anthropic_request "sk-ant-test" "hi")) "temperature" = None /\
  exists rest,
    trace (generateAIResponse "hi" Scenario.env_anthropic initial_world).2 =
      CallGenerate "hi" :: CallFetch (anthropic_request "sk-ant-test" "hi") :: rest.
Proof.
  destruct (anthropic_request_has_no_temperature Scenario.env_anthropic "hi" initial_world
              eq_refl eq_refl) as (Hsent & _ & Hnone & _).
  split; [exact Hnone | exact Hsent].
Defined.

(** ** C1: what a posted reply records *)

Lemma hash_field_count_processed field w :
  hash_field "stats" field (count_processed field w) = hash_field "stats" field w + 1.
Proof.
  unfold count_processed, hash_field at 1. simpl.
  rewrite lookup_insert_eq. simpl. by rewrite lookup_insert_eq.
Qed.

(** C1. What the handlers do after a posted reply.  When an event passes
    the gates and the reply is posted, the handler has called the generator
    with the extracted question, posted its answer on the event's id, logged
    the reply and incremented the event kind's counter by 1, as the claim
    says.  The history append of the claim does not happen: the sorted sets
    of the conversation store are left as they were on every such run,
    because neither handler calls [storeConversation], although
    [services/ai.ts] defines and exports it to store the conversation. *)
Theorem posted_reply_counts_and_stores_nothing (env : Env) (w : World) :
  (forall c q,
     comment_eligible env c = true ->
     extract_question env (keyword_of env) (CommentV2.body c) = Some q ->
     Js.truthy_string q = true ->
     submit_succeeds env (CommentV2.id c) (generated_answer env q) = true ->
     exists w',
       CommentCreate_onEvent {| comment := Some c |} env w = (Returned tt, w') /\
       trace w' = trace w ++ reply_effects env (CommentV2.id c) q ++
                  [ConsoleLog ("Replied to comment " +:+ CommentV2.id c
                               +:+ " with AI response")] /\
       hash_field "stats" "comments_processed" w'
         = hash_field "stats" "comments_processed" w + 1 /\
       redis_zsets w' = redis_zsets w) /\
  (forall p q,
     post_eligible env p = true ->
     extract_question env (keyword_of env) (postContent p) = Some q ->
     submit_succeeds env (PostV2.id p) (generated_answer env q) = true ->
     exists w',
       PostSubmit_onEvent {| post := Some p |} env w = (Returned tt, w') /\
       trace w' = trace w ++ reply_effects env (PostV2.id p) q ++
                  [ConsoleLog ("Replied to post " +:+ PostV2.id p +:+ " with AI response")] /\
       hash_field "stats" "posts_processed" w'
         = hash_field "stats" "posts_processed" w + 1 /\
       redis_zsets w' = redis_zsets w).
Proof.
  split.
  - intros c q Hel Hq Hne Hok. rewrite (comment_eligible_run _ _ _ Hel), Hq, Hne, Hok.
    simpl. eexists. split; [reflexivity|]. split; [reflexivity|].
    split; [|reflexivity].
    rewrite hash_field_count_processed. reflexivity.
  - intros p q Hel Hq Hok. rewrite (post_eligible_run _ _ _ Hel), Hq, Hok.
    eexists. split; [reflexivity|]. split; [reflexivity|].
    split; [|reflexivity].
    rewrite hash_field_count_processed. reflexivity.
Qed.

Lemma posted_reply_counts_and_stores_nothing_witness :
  exists w',
    CommentCreate_onEvent
      {| comment := Some (Scenario.a_comment "!ask what is photosynthesis") |}
      Scenario.env initial_world = (Returned tt, w') /\
    trace w' =
      trace initial_world ++
      reply_effects Scenario.env "t1_c1" "what is photosynthesis" ++
      [ConsoleLog "Replied to comment t1_c1 with AI response"] /\
    hash_field "stats" "comments_processed" w' = 1 /\
    redis_zsets w' = ∅.
Proof.
  exact (proj1 (posted_reply_counts_and_stores_nothing Scenario.env initial_world)
           (Scenario.a_comment "!ask what is photosynthesis") "what is photosynthesis"
           eq_refl eq_refl eq_refl eq_refl).
Defined.

(** C1 at a concrete event: after the reply to alice's comment is posted
    and counted, her sorted set does not exist and her history is empty. *)
Lemma posted_reply_leaves_history_empty :
  let w' := (CommentCreate_onEvent
               {| comment := Some (Scenario.a_comment "!ask what is photosynthesis") |}
               Scenario.env initial_world).2 in
  trace w' =
    [CallGenerate "what is photosynthesis";
     CallFetch (openai_request "sk-test" "what is photosynthesis");
     CallSubmitComment "t1_c1" (JStr "Plants turn light into sugar.");
     ConsoleLog "Replied to comment t1_c1 with AI response"] /\
  hash_field "stats" "comments_processed" w' = 1 /\
  zset_at (conversation_key "alice") w' = [] /\
  (getConversationHistory "alice" Scenario.env w').1 = Returned [].
Proof. vm_compute. repeat split; reflexivity. Qed.

(** ** Question extraction *)

Lemma lower_of_canonicalize c : lower_of_canonical (Js.canonicalize c) = Js.lower_char c.
Proof. destruct c as [[] [] [] [] [] [] [] []]; vm_compute; reflexivity. Qed.

Lemma canonicalize_lower c : Js.canonicalize (Js.lower_char c) = Js.canonicalize c.
Proof. destruct c as [[] [] [] [] [] [] [] []]; vm_compute; reflexivity. Qed.

Lemma canonical_eq_lower a b :
  Js.canonicalize a = Js.canonicalize b <-> Js.lower_char a = Js.lower_char b.
Proof.
  split; intros H.
  - by rewrite <- (lower_of_canonicalize a), H, lower_of_canonicalize.
  - by rewrite <- (canonicalize_lower a), H, canonicalize_lower.
Qed.

Lemma length_literal_atoms kw : length (literal_atoms kw) = String.length kw.
Proof. induction kw; simpl; congruence. Qed.

Lemma parse_atoms_literal kw :
  Js.no_syntax_char kw = true -> Js.parse_atoms kw = Some (literal_atoms kw).
Proof.
  induction kw as [|c kw IH]; simpl; [done|].
  rewrite andb_true_iff, negb_true_iff. intros [Hc Hkw]. rewrite (IH Hkw), Hc.
  destruct (Ascii.eqb_spec c "."%char) as [->|_]; [discriminate Hc | done].
Qed.

Lemma match_here_literal kw s :
  Js.match_here (literal_atoms kw) s = starts_with_ci kw s.
Proof.
  unfold starts_with_ci, Js.toLowerCase.
  revert s; induction kw as [|c kw IH]; intros s; simpl.
  - by destruct s.
  - destruct s as [|d s]; simpl; [done|]. rewrite IH.
    destruct (ascii_dec (Js.lower_char c) (Js.lower_char d)) as [Heq|Hne].
    + apply canonical_eq_lower in Heq. rewrite Heq, Nat.eqb_refl. done.
    + destruct (Nat.eqb_spec (Js.canonicalize c) (Js.canonicalize d)) as [Heq|_]; [|done].
      by apply canonical_eq_lower in Heq.
Qed.











Lemma comment_ineligible_run env w c :
  comment_eligible env c = false ->
  CommentCreate_onEvent {| comment := Some c |} env w = (Returned tt, w).
Proof.
  unfold comment_eligible, keyword_of, CommentCreate_onEvent. run.
  destruct (truthy_bool _); simpl; [|done].
  destruct (same_identity _ _); simpl; [done|].
  by intros ->.
Qed.

Lemma post_ineligible_run env w p :
  post_eligible env p = false ->
  PostSubmit_onEvent {| post := Some p |} env w = (Returned tt, w).
Proof.
  unfold post_eligible, keyword_of, PostSubmit_onEvent. run.
  destruct (truthy_bool _); simpl; [|done].
  destruct (same_identity _ _); simpl; [done|].
  by intros ->.
Qed.



(** ** C5: the empty question *)




(** ** The stored entry: [JSON.parse] inverts [JSON.stringify] *)

Lemma expect_onto p k : Json.expect p (Json.onto p k) = Some k.
Proof.
  induction p as [|c p IH]; simpl; [by destruct k|]. by rewrite Ascii.eqb_refl.
Qed.

Lemma parse_string_body_quote s k :
  Json.parse_string_body (Json.quote_body_onto s k) = Some (s, k).
Proof.
  induction s as [|c s IH]; [reflexivity|].
  change (Json.quote_body_onto (String c s) k)
    with (Json.escape_onto c (Json.quote_body_onto s k)).
  generalize dependent (Json.quote_body_onto s k). intros rest IH.
  destruct c as [[] [] [] [] [] [] [] []];
    cbv [Json.escape_onto nat_of_ascii N_of_ascii N_of_digits N.to_nat N.add N.mul
         Pos.to_nat Pos.iter_op Pos.add Pos.succ Nat.add Nat.ltb Nat.leb];
    simpl; rewrite IH; reflexivity.
Qed.

Lemma parse_string_quote s k : Json.parse_string (Json.quote_onto s k) = Some (s, k).
Proof. unfold Json.quote_onto. simpl. apply parse_string_body_quote. Qed.

Lemma expect_key_quote name k :
  Json.expect_key name (Json.quote_onto name (Json.onto ":" k)) = Some k.
Proof.
  unfold Json.expect_key. rewrite parse_string_quote, String.eqb_refl.
  apply expect_onto.
Qed.

Lemma span_number_stop k : ends_number k = true -> Json.span_number k = (EmptyString, k).
Proof.
  destruct k as [|c k]; simpl; [done|]. rewrite negb_true_iff. by intros ->.
Qed.

Lemma span_number_uint d k :
  ends_number k = true ->
  Json.span_number (Json.onto (NilEmpty.string_of_uint d) k)
    = (NilEmpty.string_of_uint d, k).
Proof.
  intros Hk. induction d; simpl; rewrite ?IHd; try reflexivity.
  by apply span_number_stop.
Qed.

Lemma span_number_int d k :
  d <> Decimal.Pos Decimal.Nil -> d <> Decimal.Neg Decimal.Nil ->
  ends_number k = true ->
  Json.span_number (Json.onto (NilZero.string_of_int d) k)
    = (NilZero.string_of_int d, k).
Proof.
  intros Hp Hn Hk.
  assert (Hnil : forall u, u <> Decimal.Nil ->
            NilZero.string_of_uint u = NilEmpty.string_of_uint u) by by intros [].
  destruct d as [d|d]; simpl.
  - rewrite Hnil by congruence. by apply span_number_uint.
  - rewrite Hnil by congruence. by rewrite span_number_uint.
Qed.

Lemma to_int_not_nil z :
  Z.to_int z <> Decimal.Pos Decimal.Nil /\ Z.to_int z <> Decimal.Neg Decimal.Nil.
Proof.
  destruct z as [|p|p]; simpl; split; try discriminate;
    intros [=H]; by apply (DecimalPos.Unsigned.to_uint_nonnil p).
Qed.

Lemma parse_integer_number z k :
  ends_number k = true ->
  Json.parse_integer (Json.onto (Json.number_to_string z) k) = Some (z, k).
Proof.
  intros Hk. unfold Json.parse_integer, Json.number_to_string.
  destruct (to_int_not_nil z) as [Hp Hn].
  rewrite (span_number_int _ _ Hp Hn Hk), (NilZero.isi _ Hp Hn).
  by rewrite DecimalZ.of_to.
Qed.

Lemma parse_stringify_entry e : Json.parse_entry (Json.stringify_entry e) = Some e.
Proof.
  destruct e as [ts q a].
  unfold Json.parse_entry, Json.stringify_entry. simpl timestamp. simpl question.
  simpl answer.
  rewrite expect_onto, expect_key_quote, parse_integer_number by reflexivity.
  rewrite expect_onto, expect_key_quote, parse_string_quote.
  rewrite expect_onto, expect_key_quote, parse_string_quote.
  reflexivity.
Qed.

Lemma stringify_entry_inj e1 e2 :
  Json.stringify_entry e1 = Json.stringify_entry e2 -> e1 = e2.
Proof.
  intros H. apply (f_equal Json.parse_entry) in H.
  rewrite !parse_stringify_entry in H. congruence.
Qed.

(** ** The sorted set *)

Lemma zcard_length l : Redis.zcard l = Z.of_nat (length l).
Proof. reflexivity. Qed.

Lemma zremrangebyrank_overflow (l : Redis.ZSet) :
  5 < Redis.zcard l ->
  Redis.zremrangebyrank 0 (Redis.zcard l - 6) l = drop (length l - 5) l.
Proof.
  intros H. unfold Redis.zremrangebyrank, Redis.rank_window.
  rewrite zcard_length in *.
  destruct (0 <? 0) eqn:E0; [discriminate|].
  destruct (Z.of_nat (length l) - 6 <? 0) eqn:E1; [apply Z.ltb_lt in E1; lia|].
  rewrite Z.min_l by lia.
  destruct (0 <=? Z.of_nat (length l) - 6) eqn:E2; [|apply Z.leb_gt in E2; lia].
  simpl. f_equal. lia.
Qed.

Lemma zrange_first_five (l : Redis.ZSet) : Redis.zrange 0 4 l = take 5 l.
Proof.
  unfold Redis.zrange, Redis.rank_window. rewrite zcard_length.
  change (0 <? 0) with false. change (4 <? 0) with false. cbv iota.
  destruct (Z.le_gt_cases 5 (Z.of_nat (length l))) as [Hbig|Hsmall].
  - rewrite Z.min_l by lia. simpl. by rewrite drop_0.
  - rewrite Z.min_r by lia.
    destruct (0 <=? Z.of_nat (length l) - 1) eqn:E.
    + apply Z.leb_le in E. rewrite drop_0.
      replace (Z.to_nat (Z.of_nat (length l) - 1 - 0 + 1)) with (length l) by lia.
      rewrite !take_ge; [done | lia | lia].
    + apply Z.leb_gt in E. destruct l; [done | simpl in E; lia].
Qed.

Lemma Forall_insert_sorted (P : Z * string -> Prop) x l :
  P x -> Forall P l -> Forall P (Redis.insert_sorted x l).
Proof.
  intros Hx. induction 1 as [|y l Hy Hl IH]; simpl.
  - by repeat constructor.
  - destruct (Redis.entry_leb x y); repeat constructor; auto.
Qed.

Lemma Forall_remove_member (P : Z * string -> Prop) m l :
  Forall P l -> Forall P (Redis.remove_member m l).
Proof.
  unfold Redis.remove_member. induction 1 as [|y l Hy Hl IH]; simpl; [constructor|].
  destruct (negb _); [by constructor | done].
Qed.

Lemma entry_leb_true x y : Redis.entry_leb x y = true -> x.1 <= y.1.
Proof.
  unfold Redis.entry_leb. rewrite orb_true_iff, andb_true_iff.
  intros [H|[H _]]; [apply Z.ltb_lt in H | apply Z.eqb_eq in H]; lia.
Qed.

Lemma entry_leb_false x y : Redis.entry_leb x y = false -> y.1 <= x.1.
Proof.
  unfold Redis.entry_leb. rewrite orb_false_iff. intros [H _].
  apply Z.ltb_ge in H. lia.
Qed.

Lemma scores_ascending_insert x l :
  scores_ascending l -> scores_ascending (Redis.insert_sorted x l).
Proof.
  unfold scores_ascending. induction 1 as [|y l Hl IH Hy]; simpl.
  - repeat constructor.
  - destruct (Redis.entry_leb x y) eqn:E.
    + apply entry_leb_true in E. constructor; [by constructor|].
      constructor; [done|]. eapply Forall_impl; [exact Hy|]. simpl. intros; lia.
    + apply entry_leb_false in E. constructor; [exact IH|].
      by apply Forall_insert_sorted.
Qed.

Lemma scores_ascending_remove m l :
  scores_ascending l -> scores_ascending (Redis.remove_member m l).
Proof.
  unfold scores_ascending, Redis.remove_member.
  induction 1 as [|y l Hl IH Hy]; simpl; [constructor|].
  destruct (negb _); [|done]. constructor; [done|].
  by apply (Forall_remove_member _ m).
Qed.

Lemma scores_ascending_zadd ts m l :
  scores_ascending l -> scores_ascending (Redis.zadd ts m l).
Proof. intros H. by apply scores_ascending_insert, scores_ascending_remove. Qed.

Lemma sorted_app_order {A} (R : A -> A -> Prop) (l1 l2 : list A) :
  StronglySorted R (l1 ++ l2) ->
  forall x y, In x l1 -> In y l2 -> R x y.
Proof.
  induction l1 as [|a l1 IH]; simpl; intros Hs x y Hx Hy; [done|].
  inversion Hs as [|? ? Hs' Ha]; subst. destruct Hx as [->|Hx].
  - apply (proj1 (List.Forall_forall _ _) Ha). apply in_or_app. by right.
  - by apply IH.
Qed.

Lemma sorted_drop {A} (R : A -> A -> Prop) n (l : list A) :
  StronglySorted R l -> StronglySorted R (drop n l).
Proof.
  intros H. revert n. induction H as [|a l Hl IH Ha]; intros [|n]; simpl;
    try constructor; auto.
Qed.

Lemma sorted_take {A} (R : A -> A -> Prop) n (l : list A) :
  StronglySorted R l -> StronglySorted R (take n l).
Proof.
  intros H. revert n. induction H as [|a l Hl IH Ha]; intros [|n]; simpl;
    try constructor; auto.
  by apply Forall_take.
Qed.

(** ** [storeConversation] *)

Lemma trim_to_five_drop l : trim_to_five l = drop (length l - 5) l.
Proof.
  unfold trim_to_five. destruct (5 <? Redis.zcard l) eqn:E.
  - apply Z.ltb_lt in E. by apply zremrangebyrank_overflow.
  - apply Z.ltb_ge in E. rewrite zcard_length in E.
    replace (length l - 5)%nat with 0%nat by lia. by rewrite drop_0.
Qed.

Lemma zset_at_insert_eq key l (m : gmap string Redis.ZSet) h t tr :
  zset_at key {| redis_hashes := h; redis_zsets := <[key := l]> m;
                 ticks := t; trace := tr |} = l.
Proof. unfold zset_at. simpl. by rewrite lookup_insert_eq. Qed.

Lemma storeConversation_run env w u q a :
  exists w',
    storeConversation u q a env w = (Returned tt, w') /\
    zset_at (conversation_key u) w' = trim_to_five (inserted env w u q a) /\
    (forall key, key <> conversation_key u -> zset_at key w' = zset_at key w) /\
    ticks w' = S (ticks w) /\
    redis_hashes w' = redis_hashes w /\
    trace w' = trace w.
Proof.
  unfold storeConversation, Date_now, redis_zAdd, redis_zCard, redis_zRemRangeByRank,
    update_zset, inserted, trim_to_five. run.
  rewrite !zset_at_insert_eq.
  change (zset_at (conversation_key u)
            {| redis_hashes := redis_hashes w; redis_zsets := redis_zsets w;
               ticks := S (ticks w); trace := trace w |})
    with (zset_at (conversation_key u) w).
  set (l := Redis.zadd _ _ _).
  destruct (5 <? Redis.zcard l); simpl; rewrite ?zset_at_insert_eq;
    eexists; (split; [reflexivity|]).
  - split; [apply zset_at_insert_eq|].
    split; [|by repeat split].
    intros key Hne. unfold zset_at. simpl. by rewrite !lookup_insert_ne.
  - split; [apply zset_at_insert_eq|].
    split; [|by repeat split].
    intros key Hne. unfold zset_at. simpl. by rewrite lookup_insert_ne.
Qed.

Lemma remove_member_absent m l :
  Forall (fun x => x.2 <> m) l -> Redis.remove_member m l = l.
Proof.
  unfold Redis.remove_member. induction 1 as [|y l Hy Hl IH]; simpl; [done|].
  destruct (String.eqb_spec y.2 m) as [Heq|_]; [done|]. simpl. by rewrite IH.
Qed.

Lemma length_insert_sorted x l : length (Redis.insert_sorted x l) = S (length l).
Proof.
  induction l as [|y l IH]; simpl; [done|].
  destruct (Redis.entry_leb x y); simpl; by rewrite ?IH.
Qed.

Lemma appends_bound env ops :
  forall w u,
    (length (zset_at (conversation_key u) w) <= 5)%nat ->
    exists w', appends ops env w = (Returned tt, w') /\
               (length (zset_at (conversation_key u) w') <= 5)%nat.
Proof.
  induction ops as [|op ops IH]; intros w u Hw; simpl.
  - by exists w.
  - destruct (storeConversation_run env w (to_user op) (asked op) (answered op))
      as (w1 & Hrun & Hset & Hother & _).
    unfold bind. rewrite Hrun. apply IH.
    destruct (decide (conversation_key u = conversation_key (to_user op))) as [->|Hne].
    + rewrite Hset, trim_to_five_drop, length_drop. lia.
    + by rewrite Hother.
Qed.

(** ** [getConversationHistory] *)

Lemma parse_members_images es env w :
  parse_members (map member_of es) env w = (Returned es, w).
Proof.
  induction es as [|e es IH]; [reflexivity|].
  simpl. rewrite parse_stringify_entry. unfold bind. by rewrite IH.
Qed.

Lemma history_of_images env w u es :
  zset_at (conversation_key u) w = map member_of es ->
  getConversationHistory u env w = (Returned (take 5 es), w).
Proof.
  intros Hset. unfold getConversationHistory, redis_zRange, bind.
  rewrite Hset, zrange_first_five, <- fmap_take. apply parse_members_images.
Qed.

Lemma history_of_nothing env w u :
  redis_zsets w !! conversation_key u = None ->
  getConversationHistory u env w = (Returned [], w).
Proof.
  intros Hnone. apply (history_of_images env w u []).
  unfold zset_at. by rewrite Hnone.
Qed.

Lemma images_list l : Forall is_image l -> exists es, l = map member_of es.
Proof.
  induction 1 as [|x l [e ->] Hl [es ->]]; [by exists []|]. by exists (e :: es).
Qed.

Lemma timestamps_of_scores es :
  scores_ascending (map member_of es) -> timestamps_ascending es.
Proof.
  unfold scores_ascending, timestamps_ascending.
  induction es as [|e es IH]; simpl; intros H; [constructor|].
  inversion H as [|? ? Hs Hf]; subst. constructor; [by apply IH|].
  apply List.Forall_forall. intros x Hx.
  apply (proj1 (List.Forall_forall _ _) Hf (member_of x)). by apply in_map.
Qed.

Lemma well_stored_initial : well_stored initial_world.
Proof. intros key. split; constructor. Qed.

Lemma well_stored_step env w u q a w' :
  well_stored w ->
  storeConversation u q a env w = (Returned tt, w') ->
  well_stored w'.
Proof.
  intros Hw Hrun key.
  destruct (storeConversation_run env w u q a) as (w1 & Hrun1 & Hset & Hother & _).
  rewrite Hrun in Hrun1. injection Hrun1 as <-.
  destruct (decide (key = conversation_key u)) as [->|Hne]; [|by rewrite Hother].
  rewrite Hset, trim_to_five_drop. destruct (Hw (conversation_key u)) as [Himg Hasc].
  split.
  - apply Forall_drop. unfold inserted, Redis.zadd.
    apply Forall_insert_sorted; [by eexists {| timestamp := _ |}|].
    by apply Forall_remove_member.
  - apply sorted_drop. by apply scores_ascending_zadd.
Qed.

Lemma well_stored_appends env ops :
  forall w, well_stored w ->
    exists w', appends ops env w = (Returned tt, w') /\ well_stored w'.
Proof.
  induction ops as [|op ops IH]; intros w Hw; simpl; [by exists w|].
  destruct (storeConversation_run env w (to_user op) (asked op) (answered op))
    as (w1 & Hrun & _).
  unfold bind. rewrite Hrun. apply IH. by eapply well_stored_step.
Qed.

Lemma well_stored_history env w u :
  well_stored w ->
  exists es,
    getConversationHistory u env w = (Returned es, w) /\
    (length es <= 5)%nat /\ timestamps_ascending es.
Proof.
  intros Hw. destruct (Hw (conversation_key u)) as [Himg Hasc].
  destruct (images_list _ Himg) as [es Hes].
  exists (take 5 es). split; [by apply history_of_images|].
  split; [rewrite length_take; lia|].
  apply sorted_take, timestamps_of_scores. by rewrite <- Hes.
Qed.

(** ** C2: the bound of five and the eviction *)

(** C2. Along any sequence of appends a user's set never holds more than 5
    members, and from the empty store every set stays in ascending score
    order.  One append inserts the new member and then removes members
    from the low end of the set until 5 are left: when the set was in
    ascending score order, every removed member has a timestamp no greater
    than any member kept, and when the new member is the 6th exactly one
    member is removed. *)
Theorem store_keeps_five_evicting_oldest (env : Env) :
  (forall ops w u,
     (length (zset_at (conversation_key u) w) <= 5)%nat ->
     exists w',
       appends ops env w = (Returned tt, w') /\
       (length (zset_at (conversation_key u) w') <= 5)%nat) /\
  (forall ops,
     exists w',
       appends ops env initial_world = (Returned tt, w') /\
       forall u, scores_ascending (zset_at (conversation_key u) w')) /\
  (forall w u q a,
     exists w' removed,
       storeConversation u q a env w = (Returned tt, w') /\
       inserted env w u q a = removed ++ zset_at (conversation_key u) w' /\
       length (zset_at (conversation_key u) w')
         = Nat.min 5 (length (inserted env w u q a)) /\
       (scores_ascending (zset_at (conversation_key u) w) ->
        forall r k, In r removed -> In k (zset_at (conversation_key u) w') -> r.1 <= k.1) /\
       (length (zset_at (conversation_key u) w) = 5%nat ->
        Forall (fun x => x.2 <> Json.stringify_entry
                  {| timestamp := clock env (ticks w); question := q; answer := a |})
               (zset_at (conversation_key u) w) ->
        length removed = 1%nat)).
Proof.
  split; [intros ops; apply appends_bound|]. split.
  { intros ops.
    destruct (well_stored_appends env ops _ well_stored_initial) as (w' & Hrun & Hw').
    exists w'. split; [exact Hrun|]. intros u. apply Hw'. }
  intros w u q a.
  destruct (storeConversation_run env w u q a) as (w' & Hrun & Hset & _).
  exists w', (take (length (inserted env w u q a) - 5) (inserted env w u q a)).
  rewrite Hset, trim_to_five_drop.
  split; [exact Hrun|]. split; [by rewrite take_drop|].
  split; [rewrite length_drop; lia|]. split.
  - intros Hsorted r k.
    apply (sorted_app_order (fun x y : Z * string => x.1 <= y.1)).
    rewrite take_drop. by apply scores_ascending_zadd.
  - intros Hfive Hnew. rewrite length_take. unfold inserted, Redis.zadd.
    rewrite (remove_member_absent _ _ Hnew), length_insert_sorted, Hfive. reflexivity.
Qed.

Lemma store_keeps_five_evicting_oldest_witness :
  let five := (appends (take 5 Scenario.six_appends) Scenario.env initial_world).2 in
  (exists w',
     appends Scenario.six_appends Scenario.env initial_world = (Returned tt, w') /\
     (length (zset_at (conversation_key "alice") w') <= 5)%nat) /\
  (exists w' removed,
     storeConversation "alice" "f" "6" Scenario.env five = (Returned tt, w') /\
     length removed = 1%nat /\
     forall r k : Z * string,
       In r removed -> In k (zset_at (conversation_key "alice") w') -> r.1 <= k.1).
Proof.
  intros five.
  destruct (store_keeps_five_evicting_oldest Scenario.env) as (Hbound & _ & Hstep).
  split.
  - apply Hbound. vm_compute. lia.
  - destruct (Hstep five "alice" "f" "6")
      as (w' & removed & Hrun & _ & _ & Holdest & Hone).
    exists w', removed. split; [exact Hrun|]. split.
    + apply Hone; [vm_compute; reflexivity|].
      vm_compute. repeat constructor; discriminate.
    + apply Holdest. unfold scores_ascending. vm_compute.
      repeat constructor; discriminate.
Defined.

(** ** Appends under a clock that advances *)

Lemma conversation_key_inj u1 u2 :
  conversation_key u1 = conversation_key u2 -> u1 = u2.
Proof.
  unfold conversation_key. rewrite !app_cons, !app_empty. intros H. by injection H.
Qed.

Lemma insert_sorted_last x l :
  Forall (fun y => y.1 < x.1) l -> Redis.insert_sorted x l = l ++ [x].
Proof.
  induction 1 as [|y l Hy Hl IH]; simpl; [done|].
  unfold Redis.entry_leb.
  destruct (Z.ltb_spec x.1 y.1); [lia|].
  destruct (Z.eqb_spec x.1 y.1); [lia|]. simpl. by rewrite IH.
Qed.

Lemma last_n_snoc {A} (l : list A) (x : A) :
  last_n 5 (last_n 5 l ++ [x]) = last_n 5 (l ++ [x]).
Proof.
  unfold last_n. rewrite !length_app, length_drop. simpl.
  destruct (Nat.le_gt_cases (length l) 5) as [Hle|Hgt].
  - replace (length l - 5)%nat with 0%nat by lia. rewrite drop_0.
    by replace (length l - 0 + 1 - 5)%nat with (length l + 1 - 5)%nat by lia.
  - replace (length l - (length l - 5) + 1 - 5)%nat with 1%nat by lia.
    rewrite !drop_app, drop_drop, !length_drop.
    replace (length l + 1 - 5 - length l)%nat with 0%nat by lia.
    replace (1 - (length l - (length l - 5)))%nat with 0%nat by lia.
    f_equal. f_equal. lia.
Qed.

Lemma last_n_in {A} n (l : list A) x : In x (last_n n l) -> In x l.
Proof.
  unfold last_n. rewrite <- !list_elem_of_In. apply subseteq_drop.
Qed.

Lemma entries_of_snoc_same u e log :
  entries_of u (log ++ [(u, e)]) = entries_of u log ++ [e].
Proof.
  unfold entries_of. rewrite List.filter_app, map_app. simpl.
  by rewrite String.eqb_refl.
Qed.

Lemma entries_of_snoc_other u u0 e log :
  u0 <> u -> entries_of u (log ++ [(u0, e)]) = entries_of u log.
Proof.
  intros Hne. unfold entries_of. rewrite List.filter_app, map_app. simpl.
  destruct (String.eqb_spec u0 u); [done|]. simpl. by rewrite app_nil_r.
Qed.

Lemma entries_of_in u e log : In e (entries_of u log) -> exists v, In (v, e) log.
Proof.
  unfold entries_of. rewrite in_map_iff. intros ([v e'] & <- & Hin).
  apply List.filter_In in Hin. exists v. apply Hin.
Qed.

Section AdvancingClock.

Variable env : Env.
Hypothesis clock_advances : forall n, clock env n < clock env (S n).

Lemma reflects_step log w op :
  reflects env log w ->
  exists w',
    storeConversation (to_user op) (asked op) (answered op) env w = (Returned tt, w') /\
    ticks w' = S (ticks w) /\
    reflects env
      (log ++ [(to_user op, {| timestamp := clock env (ticks w);
                               question := asked op; answer := answered op |})]) w'.
Proof.
  intros [Hsets Hpast].
  destruct (storeConversation_run env w (to_user op) (asked op) (answered op))
    as (w' & Hrun & Hset & Hother & Hticks & _).
  exists w'. split; [exact Hrun|]. split; [exact Hticks|].
  set (e := {| timestamp := clock env (ticks w); question := asked op;
               answer := answered op |}).
  split.
  - intros u. destruct (decide (u = to_user op)) as [->|Hne].
    + rewrite Hset, trim_to_five_drop, entries_of_snoc_same, <- last_n_snoc.
      unfold inserted, Redis.zadd. rewrite Hsets. fold e.
      set (L := last_n 5 (entries_of (to_user op) log)).
      assert (Hold : Forall (fun e' => timestamp e' < timestamp e) L).
      { apply List.Forall_forall. intros e' Hin.
        apply last_n_in, entries_of_in in Hin. destruct Hin as [v Hin].
        apply (proj1 (List.Forall_forall _ _) Hpast (v, e') Hin). }
      rewrite remove_member_absent.
      2:{ apply Forall_fmap. eapply Forall_impl; [exact Hold|].
          intros e' Hlt Heq. simpl in Heq. apply stringify_entry_inj in Heq.
          subst e'. lia. }
      rewrite insert_sorted_last.
      2:{ apply Forall_fmap. eapply Forall_impl; [exact Hold|]. by intros e'. }
      change [(clock env (ticks w), Json.stringify_entry e)] with (map member_of [e]).
      rewrite <- map_app. unfold last_n. by rewrite length_map, <- fmap_drop.
    + rewrite Hother by (intros Heq; by apply conversation_key_inj in Heq).
      rewrite entries_of_snoc_other by done. apply Hsets.
  - rewrite Hticks. apply Forall_app. split.
    + eapply Forall_impl; [exact Hpast|]. intros x Hx. simpl in *.
      specialize (clock_advances (ticks w)). lia.
    + constructor; [|constructor]. simpl. apply clock_advances.
Qed.

Lemma reflects_appends ops :
  forall log w,
    reflects env log w ->
    exists w',
      appends ops env w = (Returned tt, w') /\
      reflects env (log ++ stamped (clock env) (ticks w) ops) w'.
Proof.
  induction ops as [|op ops IH]; intros log w Hw; simpl.
  - exists w. by rewrite app_nil_r.
  - destruct (reflects_step log w op Hw) as (w1 & Hrun & Hticks & Hw1).
    unfold bind. rewrite Hrun.
    destruct (IH _ _ Hw1) as (w' & Hrest & Hw').
    exists w'. split; [exact Hrest|].
    by rewrite Hticks, <- app_assoc in Hw'.
Qed.

End AdvancingClock.

Lemma reflects_initial env : reflects env [] initial_world.
Proof. split; [done | constructor]. Qed.

(** ** C6: the history *)

(** C6 (amended). After any sequence of appends the history of a user is
    returned, has at most 5 entries and is in ascending timestamp order; a
    user without a set has the empty history.  When every reading of the
    clock is later than the one before, the history is exactly the last 5
    entries appended for the user (all of them when fewer), oldest first. *)
Theorem history_is_last_five_when_clock_advances (env : Env) :
  (forall ops u,
     exists es w',
       (appends ops ;; getConversationHistory u) env initial_world = (Returned es, w') /\
       (length es <= 5)%nat /\ timestamps_ascending es) /\
  (forall w u,
     redis_zsets w !! conversation_key u = None ->
     getConversationHistory u env w = (Returned [], w)) /\
  ((forall n, clock env n < clock env (S n)) ->
   forall ops u,
     exists w',
       (appends ops ;; getConversationHistory u) env initial_world =
         (Returned (last_n 5 (entries_of u (stamped (clock env) 0 ops))), w')).
Proof.
  split; [|split].
  - intros ops u.
    destruct (well_stored_appends env ops _ well_stored_initial) as (w1 & Hrun & Hw1).
    destruct (well_stored_history env w1 u Hw1) as (es & Hhist & Hlen & Hasc).
    exists es, w1. unfold bind. by rewrite Hrun, Hhist.
  - intros w u. apply history_of_nothing.
  - intros Hclock ops u.
    destruct (reflects_appends env Hclock ops [] _ (reflects_initial env))
      as (w1 & Hrun & Hsets & _).
    exists w1. unfold bind. rewrite Hrun.
    rewrite (history_of_images env w1 u _ (Hsets u)). simpl.
    rewrite take_ge; [done|]. unfold last_n. rewrite length_drop. lia.
Qed.

Lemma history_is_last_five_when_clock_advances_witness :
  (forall n, Scenario.ticking n < Scenario.ticking (S n)) /\
  exists w',
    (appends Scenario.six_appends ;; getConversationHistory "alice")
      Scenario.env initial_world =
    (Returned
       [ {| timestamp := 1700000000001; question := "a"; answer := "2" |};
         {| timestamp := 1700000000002; question := "c"; answer := "3" |};
         {| timestamp := 1700000000003; question := "d"; answer := "4" |};
         {| timestamp := 1700000000004; question := "e"; answer := "5" |};
         {| timestamp := 1700000000005; question := "f"; answer := "6" |} ], w').
Proof.
  assert (Hclock : forall n, Scenario.ticking n < Scenario.ticking (S n)).
  { intros n. unfold Scenario.ticking. lia. }
  split; [exact Hclock|].
  exact (proj2 (proj2 (history_is_last_five_when_clock_advances Scenario.env))
           Hclock Scenario.six_appends "alice").
Defined.

(** C6, as stated, fails when two appends read the same millisecond: the
    two oldest entries tie, the set orders them by member text, and the
    sixth append evicts the second entry appended instead of the first. *)
Lemma coarse_clock_history_keeps_oldest :
  let r := (appends Scenario.six_appends ;; getConversationHistory "alice")
             Scenario.env_coarse initial_world in
  let appended := entries_of "alice" (stamped Scenario.coarse 0 Scenario.six_appends) in
  (forall n, Scenario.coarse n <= Scenario.coarse (S n)) /\
  r.1 = Returned
          [ {| timestamp := 1700000000000; question := "b"; answer := "1" |};
            {| timestamp := 1700000000001; question := "c"; answer := "3" |};
            {| timestamp := 1700000000002; question := "d"; answer := "4" |};
            {| timestamp := 1700000000003; question := "e"; answer := "5" |};
            {| timestamp := 1700000000004; question := "f"; answer := "6" |} ] /\
  last_n 5 appended =
          [ {| timestamp := 1700000000000; question := "a"; answer := "2" |};
            {| timestamp := 1700000000001; question := "c"; answer := "3" |};
            {| timestamp := 1700000000002; question := "d"; answer := "4" |};
            {| timestamp := 1700000000003; question := "e"; answer := "5" |};
            {| timestamp := 1700000000004; question := "f"; answer := "6" |} ] /\
  r.1 <> Returned (last_n 5 appended).
Proof.
  split; [intros n; unfold Scenario.coarse; lia|].
  split; [vm_compute; reflexivity|].
  split; [vm_compute; reflexivity|].
  vm_compute. discriminate.
Qed.


(** * Further properties of the handlers *)

Lemma calls_app kind a b : calls kind (a ++ b) = (calls kind a + calls kind b)%nat.
Proof. unfold calls. by rewrite List.filter_app, length_app. Qed.

Lemma calls_one kind e : calls kind [e] = if kind e then 1%nat else 0%nat.
Proof. unfold calls. simpl. by destruct (kind e). Qed.

Lemma generate_effects_calls env q :
  calls is_generate (generate_effects env q) = 1%nat /\
  (calls is_fetch (generate_effects env q) <= 1)%nat /\
  calls is_submit (generate_effects env q) = 0%nat.
Proof.
  unfold generate_effects, provider_log.
  destruct (provider_outcome env q); simpl; repeat split; unfold calls; simpl; lia.
Qed.

Lemma reply_effects_calls env id q :
  calls is_generate (reply_effects env id q) = 1%nat /\
  (calls is_fetch (reply_effects env id q) <= 1)%nat /\
  calls is_submit (reply_effects env id q) = 1%nat.
Proof.
  unfold reply_effects. rewrite !calls_app, !calls_one.
  destruct (generate_effects_calls env q) as (Hg & Hf & Hs). rewrite Hg, Hs.
  revert Hf. generalize (calls is_fetch (generate_effects env q)).
  intros n Hn. simpl. lia.
Qed.

Lemma comment_missing_run env w :
  CommentCreate_onEvent {| comment := None |} env w =
  (Returned tt,
   if truthy_bool (auto_reply_enabled (settings env))
   then add_effects w [ConsoleLog "Comment not found in event"] else w).
Proof. unfold CommentCreate_onEvent. run. by destruct (truthy_bool _). Qed.

Lemma post_missing_run env w :
  PostSubmit_onEvent {| post := None |} env w =
  (Returned tt,
   if truthy_bool (auto_reply_enabled (settings env))
   then add_effects w [ConsoleLog "Post not found in event"] else w).
Proof. unfold PostSubmit_onEvent. run. by destruct (truthy_bool _). Qed.

(** X1. Whatever the event and whatever the collaborators answer, a handler
    returns normally: nothing thrown by [fetch], [submitComment], a property
    read or [new RegExp] escapes it.  During one event it calls the
    generator at most once, fetches at most once and calls [submitComment]
    at most once (a rejected reply is not retried); it never writes a
    sorted set and never reads the clock. *)
Theorem handlers_return_and_call_at_most_once (env : Env) (w : World) :
  (forall ev,
     exists effs w',
       CommentCreate_onEvent ev env w = (Returned tt, w') /\
       trace w' = trace w ++ effs /\
       (calls is_generate effs <= 1)%nat /\ (calls is_fetch effs <= 1)%nat /\
       (calls is_submit effs <= 1)%nat /\
       redis_zsets w' = redis_zsets w /\ ticks w' = ticks w) /\
  (forall ev,
     exists effs w',
       PostSubmit_onEvent ev env w = (Returned tt, w') /\
       trace w' = trace w ++ effs /\
       (calls is_generate effs <= 1)%nat /\ (calls is_fetch effs <= 1)%nat /\
       (calls is_submit effs <= 1)%nat /\
       redis_zsets w' = redis_zsets w /\ ticks w' = ticks w).
Proof.
  assert (Hnone : forall w0 : World, exists effs w',
            (Returned tt, w0) = (Returned tt, w') /\ trace w' = trace w0 ++ effs /\
            (calls is_generate effs <= 1)%nat /\ (calls is_fetch effs <= 1)%nat /\
            (calls is_submit effs <= 1)%nat /\
            redis_zsets w' = redis_zsets w0 /\ ticks w' = ticks w0).
  { intros w0. exists [], w0. rewrite app_nil_r. unfold calls. simpl.
    repeat split; lia. }
  assert (Hadd : forall effs,
            (calls is_generate effs <= 1)%nat -> (calls is_fetch effs <= 1)%nat ->
            (calls is_submit effs <= 1)%nat ->
            forall f : World -> World,
              (forall w0, trace (f w0) = trace w0 /\ redis_zsets (f w0) = redis_zsets w0
                          /\ ticks (f w0) = ticks w0) ->
              exists effs0 w',
                (Returned tt, f (add_effects w effs)) = (Returned tt, w') /\
                trace w' = trace w ++ effs0 /\
                (calls is_generate effs0 <= 1)%nat /\ (calls is_fetch effs0 <= 1)%nat /\
                (calls is_submit effs0 <= 1)%nat /\
                redis_zsets w' = redis_zsets w /\ ticks w' = ticks w).
  { intros effs Hg Hf Hs f Hframe. exists effs, (f (add_effects w effs)).
    destruct (Hframe (add_effects w effs)) as (-> & -> & ->). by repeat split. }
  assert (Hid : forall w0 : World, trace w0 = trace w0 /\ redis_zsets w0 = redis_zsets w0
                                   /\ ticks w0 = ticks w0) by done.
  assert (Hcount : forall field (w0 : World),
            trace (count_processed field w0) = trace w0 /\
            redis_zsets (count_processed field w0) = redis_zsets w0 /\
            ticks (count_processed field w0) = ticks w0) by done.
  split; intros [[x|]].
  - destruct (comment_eligible env x) eqn:Hel.
    2:{ rewrite (comment_ineligible_run _ _ _ Hel). apply Hnone. }
    rewrite (comment_eligible_run _ _ _ Hel).
    destruct (extract_question env _ _) as [q|].
    2:{ apply (Hadd _) with (f := fun w0 => w0); unfold calls; simpl; auto; lia. }
    destruct (reply_effects_calls env (CommentV2.id x) q) as (Hg & Hf & Hs).
    destruct (negb (Js.truthy_string q)).
    { destruct (submit_succeeds env _ _);
        apply (Hadd _) with (f := fun w0 => w0); unfold calls; simpl; auto; lia. }
    destruct (submit_succeeds env _ _).
    + apply (Hadd _) with (f := count_processed "comments_processed"); auto;
        rewrite calls_app, calls_one; cbn [is_generate is_fetch is_submit]; lia.
    + apply (Hadd _) with (f := fun w0 => w0); auto;
        rewrite calls_app, calls_one; cbn [is_generate is_fetch is_submit]; lia.
  - rewrite comment_missing_run. destruct (truthy_bool _); [|apply Hnone].
    apply (Hadd _) with (f := fun w0 => w0); unfold calls; simpl; auto; lia.
  - destruct (post_eligible env x) eqn:Hel.
    2:{ rewrite (post_ineligible_run _ _ _ Hel). apply Hnone. }
    rewrite (post_eligible_run _ _ _ Hel).
    destruct (extract_question env _ _) as [q|].
    2:{ apply (Hadd _) with (f := fun w0 => w0); unfold calls; simpl; auto; lia. }
    destruct (reply_effects_calls env (PostV2.id x) q) as (Hg & Hf & Hs).
    destruct (submit_succeeds env _ _).
    + apply (Hadd _) with (f := count_processed "posts_processed"); auto;
        rewrite calls_app, calls_one; cbn [is_generate is_fetch is_submit]; lia.
    + apply (Hadd _) with (f := fun w0 => w0); auto;
        rewrite calls_app, calls_one; cbn [is_generate is_fetch is_submit]; lia.
  - rewrite post_missing_run. destruct (truthy_bool _); [|apply Hnone].
    apply (Hadd _) with (f := fun w0 => w0); unfold calls; simpl; auto; lia.
Qed.

(** X2. An event that carries no post (no comment) is dropped at the second
    gate: with auto-reply enabled the handler writes the one diagnostic line
    and returns, with auto-reply disabled it writes nothing; in both cases
    no other collaborator is called and the store is untouched. *)
Theorem event_without_payload_only_logs (env : Env) (w : World) :
  PostSubmit_onEvent {| post := None |} env w =
    (Returned tt,
     if truthy_bool (auto_reply_enabled (settings env))
     then add_effects w [ConsoleLog "Post not found in event"] else w) /\
  CommentCreate_onEvent {| comment := None |} env w =
    (Returned tt,
     if truthy_bool (auto_reply_enabled (settings env))
     then add_effects w [ConsoleLog "Comment not found in event"] else w).
Proof. split; [apply post_missing_run | apply comment_missing_run]. Qed.

(** X3. When [submitComment] rejects the reply of an eligible event, the
    handler logs the error under its own label and returns normally: the
    reply was attempted exactly once, and no counter is incremented.  For a
    comment this covers both the generated answer and the fixed prompt. *)
Theorem rejected_reply_is_logged_not_counted (env : Env) (w : World) :
  (forall c q,
     comment_eligible env c = true ->
     extract_question env (keyword_of env) (CommentV2.body c) = Some q ->
     submit_succeeds env (CommentV2.id c) (comment_reply env q) = false ->
     exists effs w',
       CommentCreate_onEvent {| comment := Some c |} env w = (Returned tt, w') /\
       trace w' = trace w ++ effs ++
                  [CallSubmitComment (CommentV2.id c) (comment_reply env q);
                   ConsoleError "Error in CommentCreate trigger:" SubmitError_] /\
       calls is_submit effs = 0%nat /\
       redis_hashes w' = redis_hashes w) /\
  (forall p q,
     post_eligible env p = true ->
     extract_question env (keyword_of env) (postContent p) = Some q ->
     submit_succeeds env (PostV2.id p) (generated_answer env q) = false ->
     exists effs w',
       PostSubmit_onEvent {| post := Some p |} env w = (Returned tt, w') /\
       trace w' = trace w ++ effs ++
                  [CallSubmitComment (PostV2.id p) (generated_answer env q);
                   ConsoleError "Error in PostSubmit trigger:" SubmitError_] /\
       calls is_submit effs = 0%nat /\
       redis_hashes w' = redis_hashes w).
Proof.
  split.
  - intros c q Hel Hq Hrej. rewrite (comment_eligible_run _ _ _ Hel), Hq.
    unfold comment_reply in *. destruct (Js.truthy_string q); simpl.
    + rewrite Hrej. exists (generate_effects env q). eexists.
      split; [reflexivity|]. unfold reply_effects. simpl.
      rewrite <- !app_assoc. split; [reflexivity|].
      split; [apply generate_effects_calls | reflexivity].
    + rewrite Hrej. exists []. eexists. split; [reflexivity|]. by repeat split.
  - intros p q Hel Hq Hrej. rewrite (post_eligible_run _ _ _ Hel), Hq, Hrej.
    exists (generate_effects env q). eexists.
    split; [reflexivity|]. unfold reply_effects. simpl.
    rewrite <- !app_assoc. split; [reflexivity|].
    split; [apply generate_effects_calls | reflexivity].
Qed.

Lemma rejected_reply_is_logged_not_counted_witness :
  exists effs w',
    CommentCreate_onEvent
      {| comment := Some (Scenario.a_comment "!ask what is photosynthesis") |}
      Cases.env_rejecting initial_world = (Returned tt, w') /\
    trace w' =
      effs ++
      [CallSubmitComment "t1_c1" (JStr "Plants turn light into sugar.");
       ConsoleError "Error in CommentCreate trigger:" SubmitError_] /\
    calls is_submit effs = 0%nat /\
    redis_hashes w' = ∅.
Proof.
  exact (proj1 (rejected_reply_is_logged_not_counted Cases.env_rejecting initial_world)
           (Scenario.a_comment "!ask what is photosynthesis") "what is photosynthesis"
           eq_refl eq_refl eq_refl).
Defined.

Lemma hash_field_other_counter field other w :
  field <> other ->
  hash_field "stats" other (count_processed field w) = hash_field "stats" other w.
Proof.
  intros Hne. unfold count_processed, hash_field at 1. simpl.
  rewrite lookup_insert_eq. simpl. by rewrite lookup_insert_ne.
Qed.

(** X4. A handler only ever touches its own counter, and moves it by at
    most 1 per event: the comment handler leaves [posts_processed] alone and
    increments [comments_processed] only when the event was eligible, its
    question was not empty and the generated answer was accepted by
    [submitComment]; the post handler does the same for [posts_processed],
    also for an empty question.  The fixed prompt is never counted. *)
Theorem counters_move_only_on_posted_answers (env : Env) (w : World) :
  (forall ev,
     let w' := (CommentCreate_onEvent ev env w).2 in
     hash_field "stats" "posts_processed" w' = hash_field "stats" "posts_processed" w /\
     (hash_field "stats" "comments_processed" w'
        = hash_field "stats" "comments_processed" w \/
      hash_field "stats" "comments_processed" w'
        = hash_field "stats" "comments_processed" w + 1 /\
      exists c q,
        comment ev = Some c /\ comment_eligible env c = true /\
        extract_question env (keyword_of env) (CommentV2.body c) = Some q /\
        Js.truthy_string q = true /\
        submit_succeeds env (CommentV2.id c) (generated_answer env q) = true)) /\
  (forall ev,
     let w' := (PostSubmit_onEvent ev env w).2 in
     hash_field "stats" "comments_processed" w'
       = hash_field "stats" "comments_processed" w /\
     (hash_field "stats" "posts_processed" w' = hash_field "stats" "posts_processed" w \/
      hash_field "stats" "posts_processed" w' = hash_field "stats" "posts_processed" w + 1 /\
      exists p q,
        post ev = Some p /\ post_eligible env p = true /\
        extract_question env (keyword_of env) (postContent p) = Some q /\
        submit_succeeds env (PostV2.id p) (generated_answer env q) = true)).
Proof.
  split; intros [[x|]]; simpl.
  - destruct (comment_eligible env x) eqn:Hel.
    2:{ rewrite (comment_ineligible_run _ _ _ Hel). simpl. auto. }
    rewrite (comment_eligible_run _ _ _ Hel).
    destruct (extract_question env _ _) as [q|] eqn:Hq; [|simpl; auto].
    destruct (Js.truthy_string q) eqn:Hne; simpl.
    2:{ destruct (submit_succeeds env _ _); simpl; auto. }
    destruct (submit_succeeds env _ _) eqn:Hok; simpl; [|auto].
    split; [by rewrite hash_field_other_counter|]. right.
    split; [by rewrite hash_field_count_processed|]. by exists x, q.
  - rewrite comment_missing_run. simpl. destruct (truthy_bool _); auto.
  - destruct (post_eligible env x) eqn:Hel.
    2:{ rewrite (post_ineligible_run _ _ _ Hel). simpl. auto. }
    rewrite (post_eligible_run _ _ _ Hel).
    destruct (extract_question env _ _) as [q|] eqn:Hq; [|simpl; auto].
    destruct (submit_succeeds env _ _) eqn:Hok; simpl; [|auto].
    split; [by rewrite hash_field_other_counter|]. right.
    split; [by rewrite hash_field_count_processed|]. by exists x, q.
  - rewrite post_missing_run. simpl. destruct (truthy_bool _); auto.
Qed.

(** * Further properties of the question extraction and the generator *)

Lemma length_trimStart s : (String.length (Js.trimStart s) <= String.length s)%nat.
Proof. induction s as [|c s IH]; simpl; [lia|]. destruct (Js.is_white c); simpl; lia. Qed.

Lemma length_trimEnd s : (String.length (Js.trimEnd s) <= String.length s)%nat.
Proof.
  induction s as [|c s IH]; simpl; [lia|].
  destruct (Js.trimEnd s); [destruct (Js.is_white c)|]; simpl in *; lia.
Qed.

Lemma length_trim s : (String.length (Js.trim s) <= String.length s)%nat.
Proof.
  unfold Js.trim. pose proof (length_trimEnd (Js.trimStart s)).
  pose proof (length_trimStart s). lia.
Qed.

Lemma match_here_length atoms s :
  Js.match_here atoms s = true -> (length atoms <= String.length s)%nat.
Proof.
  revert s; induction atoms as [|a atoms IH]; intros [|c s]; simpl; try lia; try done.
  rewrite andb_true_iff. intros [_ H]. specialize (IH _ H). lia.
Qed.

Lemma length_replace_scan atoms s :
  forall n,
    (String.length (Js.replace_scan atoms n s) + Nat.min n (String.length s)
     <= String.length s)%nat.
Proof.
  induction s as [|c s IH]; intros n; [simpl; lia|].
  destruct n as [|n].
  - change (Js.replace_scan atoms 0 (String c s))
      with (if Js.match_here atoms (String c s)
            then match length atoms with
                 | S m => Js.replace_scan atoms m s
                 | O => String c (Js.replace_scan atoms 0 s)
                 end
            else String c (Js.replace_scan atoms 0 s)).
    pose proof (IH 0%nat) as H0.
    destruct (Js.match_here atoms (String c s)); [destruct (length atoms) as [|m]|];
      simpl; try lia.
    pose proof (IH m). lia.
  - simpl. pose proof (IH n). lia.
Qed.

Lemma found_keyword_shortens kw text :
  keyword_present kw text = true ->
  (String.length (Js.replace_all (literal_atoms kw) text) + String.length kw
   <= String.length text)%nat.
Proof.
  unfold keyword_present, Js.replace_all, Js.toLowerCase.
  induction text as [|c t IH].
  - destruct kw; simpl; [lia | discriminate].
  - change (Js.includes (Js.string_map Js.lower_char (String c t))
              (Js.string_map Js.lower_char kw))
      with (starts_with_ci kw (String c t)
            || Js.includes (Js.string_map Js.lower_char t)
                 (Js.string_map Js.lower_char kw)).
    change (Js.replace_scan (literal_atoms kw) 0 (String c t))
      with (if Js.match_here (literal_atoms kw) (String c t)
            then match length (literal_atoms kw) with
                 | S m => Js.replace_scan (literal_atoms kw) m t
                 | O => String c (Js.replace_scan (literal_atoms kw) 0 t)
                 end
            else String c (Js.replace_scan (literal_atoms kw) 0 t)).
    rewrite <- match_here_literal.
    destruct (Js.match_here (literal_atoms kw) (String c t)) eqn:Hm.
    + intros _. apply match_here_length in Hm.
      rewrite length_literal_atoms in *.
      destruct (String.length kw) as [|m] eqn:Hlen.
      * pose proof (length_replace_scan (literal_atoms kw) t 0). simpl in *. lia.
      * pose proof (length_replace_scan (literal_atoms kw) t m). simpl in *. lia.
    + simpl. intros H. specialize (IH H). lia.
Qed.

(** X5. On keywords and texts of code units below 256, the keyword gate
    and the extraction agree on a keyword without syntax characters: when
    the gate has found the keyword in the text, the pattern built from it
    compiles and removes at least one occurrence, so the extracted question
    is shorter than the text by at least the length of the keyword.  (On
    that range [toLowerCase] and the [i] flag identify the same code units;
    beyond it they do not, the Kelvin sign U+212A lower-cases to [k] and is
    not matched by [/k/gi], and nothing is stated there.) *)
Theorem found_literal_keyword_is_removed (env : Env) (kw text : string) :
  Js.no_syntax_char kw = true ->
  keyword_present kw text = true ->
  exists question,
    extract_question env kw text = Some question /\
    (String.length question + String.length kw <= String.length text)%nat.
Proof.
  intros Hlit Hfound. unfold extract_question, compile_regexp.
  rewrite (parse_atoms_literal _ Hlit). simpl. eexists. split; [reflexivity|].
  pose proof (found_keyword_shortens kw text Hfound).
  pose proof (length_trim (Js.replace_all (literal_atoms kw) text)). lia.
Qed.

Lemma found_literal_keyword_is_removed_witness :
  exists question,
    extract_question Scenario.env "!ask" "hey !ASK what is x" = Some question /\
    (String.length question + 4 <= 18)%nat.
Proof.
  exact (found_literal_keyword_is_removed Scenario.env "!ask" "hey !ASK what is x"
           eq_refl eq_refl).
Defined.

Lemma fetches_of_generate env q :
  List.filter is_fetch (generate_effects env q) =
  match provider_outcome env q with
  | MissingCredential => []
  | _ => [CallFetch (request_of env q)]
  end.
Proof.
  unfold generate_effects, provider_log.
  destruct (provider_outcome env q); reflexivity.
Qed.

(** X6. Only the exact name [anthropic] selects the Anthropic path.  With
    any other first element of [ai_provider] (an unknown name, the empty
    text, an empty list) the generator behaves as with [openai]: it returns
    the same value and makes the same request to the OpenAI endpoint with
    the OpenAI key; only the label of a logged error shows the setting. *)
Theorem other_provider_names_use_openai (env : Env) (provider : option (list string))
    (q : string) (w : World) :
  selected_provider provider <> "anthropic" ->
  let r := generateAIResponse q (with_provider provider env) w in
  let r0 := generateAIResponse q (with_provider (Some ["openai"]) env) w in
  r.1 = r0.1 /\
  List.filter is_fetch (trace r.2) = List.filter is_fetch (trace r0.2) /\
  forall req,
    In (CallFetch req) (trace r.2) ->
    In (CallFetch req) (trace w) \/
    req = openai_request (default EmptyString (openai_key (settings env))) q.
Proof.
  intros Hother.
  assert (Hnot : uses_anthropic (with_provider provider env) = false).
  { unfold uses_anthropic. simpl. by apply String.eqb_neq. }
  assert (Hreq : request_of (with_provider provider env) q
                 = openai_request (default EmptyString (openai_key (settings env))) q).
  { unfold request_of, credential. by rewrite Hnot. }
  assert (Hout : provider_outcome (with_provider provider env) q
                 = provider_outcome (with_provider (Some ["openai"]) env) q).
  { unfold provider_outcome. rewrite Hreq. unfold credential. rewrite Hnot. reflexivity. }
  cbv zeta. rewrite !generateAIResponse_run. cbn [fst snd]. unfold add_effects.
  cbn [trace]. split; [|split].
  - unfold generated_answer, answer_for, not_configured. rewrite Hout, Hnot. reflexivity.
  - rewrite !List.filter_app, !fetches_of_generate, Hout, Hreq. reflexivity.
  - intros req Hin. apply in_app_or in Hin. destruct Hin as [Hin|Hin]; [by left|].
    right. assert (Hf : In (CallFetch req)
                          (List.filter is_fetch (generate_effects (with_provider provider env) q)))
      by (apply List.filter_In; by split).
    rewrite fetches_of_generate, Hreq in Hf.
    destruct (provider_outcome _ q); simpl in Hf; intuition congruence.
Qed.

Lemma other_provider_names_use_openai_witness :
  (generateAIResponse "hi" (with_provider (Some ["gemini"]) Scenario.env) initial_world).1
  = (generateAIResponse "hi" (with_provider (Some ["openai"]) Scenario.env) initial_world).1.
Proof.
  assert (H : selected_provider (Some ["gemini"]) <> "anthropic") by discriminate.
  exact (proj1 (other_provider_names_use_openai Scenario.env (Some ["gemini"]) "hi"
                  initial_world H)).
Defined.

(** X7. The keyword setting is read through [|| '!ask']: an unset keyword
    and an empty one both mean [!ask], and two settings that yield the same
    effective keyword make both handlers behave identically on every event
    and world. *)
Theorem empty_keyword_setting_means_default (env : Env) (k1 k2 : option string) (w : World) :
  triggerKeyword_of k1 = triggerKeyword_of k2 ->
  (forall ev,
     CommentCreate_onEvent ev (with_keyword k1 env) w
     = CommentCreate_onEvent ev (with_keyword k2 env) w) /\
  (forall ev,
     PostSubmit_onEvent ev (with_keyword k1 env) w
     = PostSubmit_onEvent ev (with_keyword k2 env) w).
Proof.
  intros Hsame.
  assert (Hc : forall k ev,
            CommentCreate_onEvent ev (with_keyword k env) w
            = CommentCreate_onEvent ev (with_keyword (Some (triggerKeyword_of k)) env) w).
  { intros k [[c|]]; [|rewrite !comment_missing_run; reflexivity].
    destruct (comment_eligible (with_keyword k env) c) eqn:Hel.
    - assert (Hel' : comment_eligible
                       (with_keyword (Some (triggerKeyword_of k)) env) c = true)
        by (destruct k as [[|a s]|]; exact Hel).
      rewrite (comment_eligible_run _ _ _ Hel), (comment_eligible_run _ _ _ Hel').
      destruct k as [[|a s]|]; reflexivity.
    - assert (Hel' : comment_eligible
                       (with_keyword (Some (triggerKeyword_of k)) env) c = false)
        by (destruct k as [[|a s]|]; exact Hel).
      by rewrite (comment_ineligible_run _ _ _ Hel), (comment_ineligible_run _ _ _ Hel'). }
  assert (Hp : forall k ev,
            PostSubmit_onEvent ev (with_keyword k env) w
            = PostSubmit_onEvent ev (with_keyword (Some (triggerKeyword_of k)) env) w).
  { intros k [[p|]]; [|rewrite !post_missing_run; reflexivity].
    destruct (post_eligible (with_keyword k env) p) eqn:Hel.
    - assert (Hel' : post_eligible
                       (with_keyword (Some (triggerKeyword_of k)) env) p = true)
        by (destruct k as [[|a s]|]; exact Hel).
      rewrite (post_eligible_run _ _ _ Hel), (post_eligible_run _ _ _ Hel').
      destruct k as [[|a s]|]; reflexivity.
    - assert (Hel' : post_eligible
                       (with_keyword (Some (triggerKeyword_of k)) env) p = false)
        by (destruct k as [[|a s]|]; exact Hel).
      by rewrite (post_ineligible_run _ _ _ Hel), (post_ineligible_run _ _ _ Hel'). }
  split; intros ev.
  - by rewrite (Hc k1), (Hc k2), Hsame.
  - by rewrite (Hp k1), (Hp k2), Hsame.
Qed.

Lemma empty_keyword_setting_means_default_witness :
  CommentCreate_onEvent {| comment := Some (Scenario.a_comment "!ask what is x") |}
    (with_keyword (Some "") Scenario.env) initial_world
  = CommentCreate_onEvent {| comment := Some (Scenario.a_comment "!ask what is x") |}
      (with_keyword None Scenario.env) initial_world.
Proof.
  exact (proj1 (empty_keyword_setting_means_default Scenario.env (Some "") None
                  initial_world eq_refl)
           {| comment := Some (Scenario.a_comment "!ask what is x") |}).
Defined.

(** * Further properties of the conversation store *)

Lemma parse_members_result items env1 env2 w1 w2 :
  (parse_members items env1 w1).1 = (parse_members items env2 w2).1.
Proof.
  induction items as [|item items IH]; [reflexivity|]. simpl.
  destruct (Json.parse_entry item.2); [|reflexivity].
  unfold bind.
  destruct (parse_members items env1 w1) as [[es1|e1] w1'],
           (parse_members items env2 w2) as [[es2|e2] w2']; simpl in *; congruence.
Qed.

Lemma history_depends_on_set u env w1 w2 :
  zset_at (conversation_key u) w1 = zset_at (conversation_key u) w2 ->
  (getConversationHistory u env w1).1 = (getConversationHistory u env w2).1.
Proof.
  intros Hset. unfold getConversationHistory, redis_zRange, bind. rewrite Hset.
  apply parse_members_result.
Qed.



(** X9. What is stored is read back as it was: for a user without a set,
    an append followed by a history read returns exactly the one entry with
    the clock reading, the question and the answer, whatever characters the
    two texts contain (quotes, backslashes, control characters). *)
Theorem first_append_reads_back (env : Env) (w : World) (u q a : string) :
  redis_zsets w !! conversation_key u = None ->
  exists w',
    (storeConversation u q a ;; getConversationHistory u) env w =
    (Returned [ {| timestamp := clock env (ticks w); question := q; answer := a |} ], w').
Proof.
  intros Hnone.
  destruct (storeConversation_run env w u q a) as (w' & Hrun & Hset & _).
  exists w'. unfold bind. rewrite Hrun.
  apply (history_of_images env w' u
           [ {| timestamp := clock env (ticks w); question := q; answer := a |} ]).
  rewrite Hset. unfold inserted, zset_at. rewrite Hnone. reflexivity.
Qed.

Lemma first_append_reads_back_witness :
  exists w',
    (storeConversation "alice" Cases.tricky Cases.tricky ;; getConversationHistory "alice")
      Scenario.env initial_world =
    (Returned [ {| timestamp := 1700000000000; question := Cases.tricky;
                   answer := Cases.tricky |} ], w').
Proof.
  exact (first_append_reads_back Scenario.env initial_world "alice" Cases.tricky
           Cases.tricky eq_refl).
Defined.

Lemma in_members_insert_sorted x l y :
  In y (map snd (Redis.insert_sorted x l)) -> y = x.2 \/ In y (map snd l).
Proof.
  induction l as [|z l IH]; simpl.
  - intros [<-|[]]. by left.
  - destruct (Redis.entry_leb x z); simpl; intros H.
    + destruct H as [H|H]; [by left | by right].
    + destruct H as [H|H]; [right; by left|].
      destruct (IH H) as [Heq|Hin]; [by left | right; by right].
Qed.

Lemma members_distinct_insert x l :
  ~ In x.2 (map snd l) -> members_distinct l ->
  members_distinct (Redis.insert_sorted x l).
Proof.
  unfold members_distinct. induction l as [|z l IH]; simpl; intros Hx Hl.
  - constructor; [by intros [] | constructor].
  - destruct (Redis.entry_leb x z); simpl.
    + constructor; [exact Hx | exact Hl].
    + inversion Hl as [|? ? Hz Hl']; subst. constructor.
      * intros Hin. apply in_members_insert_sorted in Hin.
        destruct Hin as [Heq|Hin]; [apply Hx; by left | by apply Hz].
      * apply IH; [|exact Hl']. intros Hin. apply Hx. by right.
Qed.

Lemma members_remove_member m l :
  ~ In m (map snd (Redis.remove_member m l)) /\
  (members_distinct l -> members_distinct (Redis.remove_member m l)) /\
  (forall y, In y (map snd (Redis.remove_member m l)) -> In y (map snd l)).
Proof.
  unfold members_distinct, Redis.remove_member.
  induction l as [|z l (IH1 & IH2 & IH3)]; simpl.
  - repeat split; auto; constructor.
  - destruct (String.eqb_spec z.2 m) as [Heq|Hne]; simpl.
    + repeat split; auto. intros Hl. inversion Hl; subst. auto.
    + split; [|split].
      * intros [H|H]; [done | by apply IH1].
      * intros Hl. inversion Hl as [|? ? Hz Hl']; subst. constructor; auto.
      * intros y [H|H]; auto.
Qed.

Lemma members_distinct_drop n l : members_distinct l -> members_distinct (drop n l).
Proof.
  unfold members_distinct. revert l; induction n as [|n IH]; intros [|z l] H;
    simpl; auto.
  inversion H; subst. by apply IH.
Qed.

Lemma members_distinct_take n l : members_distinct l -> members_distinct (take n l).
Proof.
  unfold members_distinct. revert l; induction n as [|n IH]; intros [|z l] H;
    simpl; try constructor.
  - inversion H as [|? ? Hz Hl]; subst. intros Hin. apply Hz.
    rewrite in_map_iff in *. destruct Hin as (e & He & Hin). exists e. split; [done|].
    rewrite <- list_elem_of_In in *. by eapply subseteq_take.
  - inversion H; subst. by apply IH.
Qed.

Lemma members_distinct_step env w u q a w' :
  (forall key, members_distinct (zset_at key w)) ->
  storeConversation u q a env w = (Returned tt, w') ->
  forall key, members_distinct (zset_at key w').
Proof.
  intros Hw Hrun key.
  destruct (storeConversation_run env w u q a) as (w1 & Hrun1 & Hset & Hother & _).
  rewrite Hrun in Hrun1. injection Hrun1 as <-.
  destruct (decide (key = conversation_key u)) as [->|Hne]; [|by rewrite Hother].
  rewrite Hset, trim_to_five_drop. apply members_distinct_drop.
  unfold inserted, Redis.zadd.
  destruct (members_remove_member
              (Json.stringify_entry
                 {| timestamp := clock env (ticks w); question := q; answer := a |})
              (zset_at (conversation_key u) w)) as (Hnot & Hkeep & _).
  apply members_distinct_insert; [exact Hnot | by apply Hkeep].
Qed.

Lemma members_distinct_appends env ops :
  forall w w',
    (forall key, members_distinct (zset_at key w)) ->
    appends ops env w = (Returned tt, w') ->
    forall key, members_distinct (zset_at key w').
Proof.
  induction ops as [|op ops IH]; intros w w' Hw Hrun; simpl in Hrun.
  - unfold ret in Hrun. by injection Hrun as <-.
  - destruct (storeConversation_run env w (to_user op) (asked op) (answered op))
      as (w1 & Hrun1 & _).
    unfold bind in Hrun. rewrite Hrun1 in Hrun.
    eapply IH; [|exact Hrun]. by eapply members_distinct_step.
Qed.

(** X10. The history never lists an entry twice, whatever the clock does:
    a member is unique in its set, so appending the same question and answer
    again under the same clock reading replaces the stored entry instead of
    adding a second one. *)
Theorem history_has_no_duplicates (env : Env) (ops : list Append) (u : string) :
  exists es w',
    (appends ops ;; getConversationHistory u) env initial_world = (Returned es, w') /\
    List.NoDup es.
Proof.
  destruct (well_stored_appends env ops _ well_stored_initial) as (w1 & Hrun & Hw1).
  assert (Hdistinct : members_distinct (zset_at (conversation_key u) w1)).
  { apply (members_distinct_appends env ops initial_world w1); [|exact Hrun].
    intros key. constructor. }
  destruct (Hw1 (conversation_key u)) as [Himg _].
  destruct (images_list _ Himg) as [es Hes].
  exists (take 5 es), w1. unfold bind. rewrite Hrun.
  split; [by apply history_of_images|].
  apply (members_distinct_take 5) in Hdistinct.
  unfold members_distinct in Hdistinct.
  rewrite Hes, <- fmap_take in Hdistinct.
  apply NoDup_map_inv in Hdistinct. by apply NoDup_map_inv in Hdistinct.
Qed.

Lemma insert_sorted_first x y l :
  x.1 < y.1 -> Redis.insert_sorted x (y :: l) = x :: y :: l.
Proof.
  intros Hlt. simpl. unfold Redis.entry_leb.
  by destruct (Z.ltb_spec x.1 y.1); [|lia].
Qed.

(** X11. An append whose clock reading is older than all five stored
    entries is lost at once: the new member is inserted at rank 0 and the
    trim that follows removes exactly that rank, so the user's set and
    history are what they were before the call. *)
Theorem append_older_than_five_is_dropped (env : Env) (w : World) (u q a : string) :
  length (zset_at (conversation_key u) w) = 5%nat ->
  Forall is_image (zset_at (conversation_key u) w) ->
  Forall (fun x => clock env (ticks w) < x.1) (zset_at (conversation_key u) w) ->
  exists w',
    storeConversation u q a env w = (Returned tt, w') /\
    zset_at (conversation_key u) w' = zset_at (conversation_key u) w /\
    (getConversationHistory u env w').1 = (getConversationHistory u env w).1.
Proof.
  intros Hfive Himg Hlater.
  destruct (storeConversation_run env w u q a) as (w' & Hrun & Hset & _).
  assert (Hsame : zset_at (conversation_key u) w' = zset_at (conversation_key u) w).
  { rewrite Hset, trim_to_five_drop. unfold inserted, Redis.zadd.
    rewrite remove_member_absent.
    2:{ apply List.Forall_forall. intros x Hx Heq.
        pose proof (proj1 (List.Forall_forall _ _) Himg x Hx) as [e ->].
        pose proof (proj1 (List.Forall_forall _ _) Hlater _ Hx) as Hlt.
        simpl in Heq, Hlt. apply stringify_entry_inj in Heq. subst e.
        simpl in Hlt. lia. }
    destruct (zset_at (conversation_key u) w) as [|y l]; [discriminate|].
    inversion Hlater as [|? ? Hy _]; subst.
    rewrite insert_sorted_first by exact Hy.
    simpl in Hfive. simpl length.
    replace (S (S (length l)) - 5)%nat with 1%nat by lia. reflexivity. }
  exists w'. split; [exact Hrun|]. split; [exact Hsame|].
  by apply history_depends_on_set.
Qed.

Lemma append_older_than_five_is_dropped_witness :
  exists w',
    storeConversation "alice" "late" "answer" Cases.env_set_back Cases.five_appended
      = (Returned tt, w') /\
    zset_at (conversation_key "alice") w'
      = zset_at (conversation_key "alice") Cases.five_appended /\
    (getConversationHistory "alice" Cases.env_set_back w').1
      = (getConversationHistory "alice" Cases.env_set_back Cases.five_appended).1.
Proof.
  destruct (well_stored_appends Scenario.env (take 5 Scenario.six_appends) _
              well_stored_initial) as (w5 & Hrun & Hw5).
  assert (Heq : Cases.five_appended = w5) by (unfold Cases.five_appended; by rewrite Hrun).
  apply (append_older_than_five_is_dropped Cases.env_set_back Cases.five_appended
           "alice" "late" "answer").
  - vm_compute. reflexivity.
  - rewrite Heq. apply Hw5.
  - vm_compute. repeat constructor.
Defined.

(** * The daily summary *)





(** * What a handler posts, and where *)

Lemma generate_effects_no_submit env q id text :
  ~ In (CallSubmitComment id text) (generate_effects env q).
Proof.
  unfold generate_effects, provider_log.
  destruct (provider_outcome env q); simpl; intuition discriminate.
Qed.

Lemma in_submit_reply_effects env i q id text :
  In (CallSubmitComment id text) (reply_effects env i q) ->
  id = i /\ text = generated_answer env q.
Proof.
  unfold reply_effects. rewrite in_app_iff. intros [H|[H|[]]].
  - by apply generate_effects_no_submit in H.
  - by injection H as <- <-.
Qed.

Ltac pick_submit :=
  repeat match goal with
  | H : In _ (_ ++ _) |- _ => apply in_app_iff in H; destruct H as [H|H]
  | H : In _ (reply_effects _ _ _) |- _ =>
      apply in_submit_reply_effects in H; destruct H as [-> ->]
  | H : In _ (_ :: _) |- _ => destruct H as [H|H]
  | H : In _ [] |- _ => destruct H
  | H : CallSubmitComment _ _ = CallSubmitComment _ _ |- _ => injection H as <- <-
  | H : _ = CallSubmitComment _ _ |- _ => discriminate H
  end.

(** X13. A handler only replies to the event it was given, and only with
    one of two texts: every [submitComment] of a run is made on the id of
    the event's own comment (post), and its text is the generator's answer
    for the question extracted from that event or, for a comment, the fixed
    prompt. *)
Theorem replies_target_the_event (env : Env) (w : World) :
  (forall c id text,
     In (CallSubmitComment id text)
        (trace (CommentCreate_onEvent {| comment := Some c |} env w).2) ->
     In (CallSubmitComment id text) (trace w) \/
     id = CommentV2.id c /\
     exists q,
       extract_question env (keyword_of env) (CommentV2.body c) = Some q /\
       text = comment_reply env q) /\
  (forall p id text,
     In (CallSubmitComment id text)
        (trace (PostSubmit_onEvent {| post := Some p |} env w).2) ->
     In (CallSubmitComment id text) (trace w) \/
     id = PostV2.id p /\
     exists q,
       extract_question env (keyword_of env) (postContent p) = Some q /\
       text = generated_answer env q).
Proof.
  split.
  - intros c id text. destruct (comment_eligible env c) eqn:Hel.
    2:{ rewrite (comment_ineligible_run _ _ _ Hel). by left. }
    rewrite (comment_eligible_run _ _ _ Hel). unfold comment_reply.
    destruct (extract_question env _ _) as [q|];
      [destruct (Js.truthy_string q) eqn:Hq; cbn [negb];
       destruct (submit_succeeds env _ _)|];
      cbn [snd trace add_effects count_processed]; intros H; pick_submit;
      first [by left | right; (split; [done|]); exists q; by rewrite Hq].
  - intros p id text. destruct (post_eligible env p) eqn:Hel.
    2:{ rewrite (post_ineligible_run _ _ _ Hel). by left. }
    rewrite (post_eligible_run _ _ _ Hel).
    destruct (extract_question env _ _) as [q|];
      [destruct (submit_succeeds env _ _)|];
      cbn [snd trace add_effects count_processed]; intros H; pick_submit;
      first [by left | right; (split; [done|]); by exists q].
Qed.

Lemma replies_target_the_event_witness :
  In (CallSubmitComment "t1_c1" (JStr "Plants turn light into sugar."))
     (trace initial_world) \/
  "t1_c1" = CommentV2.id (Scenario.a_comment "!ask what is photosynthesis") /\
  exists q,
    extract_question Scenario.env (keyword_of Scenario.env)
      (CommentV2.body (Scenario.a_comment "!ask what is photosynthesis")) = Some q /\
    JStr "Plants turn light into sugar." = comment_reply Scenario.env q.
Proof.
  apply (proj1 (replies_target_the_event Scenario.env initial_world)
           (Scenario.a_comment "!ask what is photosynthesis")).
  vm_compute. right. right. left. reflexivity.
Defined.

(** X14. The generator's fixed messages are posted like any answer.  With
    the credential of the selected provider missing, an eligible comment
    with a question is answered with the "not configured" message without
    any network call, and is counted; when the provider call throws, it is
    answered with the apology, after the request and the logged error, and
    is counted as well. *)
Theorem fixed_messages_are_posted_and_counted (env : Env) (w : World)
    (c : CommentV2.t) (q : string) :
  comment_eligible env c = true ->
  extract_question env (keyword_of env) (CommentV2.body c) = Some q ->
  Js.truthy_string q = true ->
  (forall text, submit_succeeds env (CommentV2.id c) (JStr text) = true) ->
  let w' := (CommentCreate_onEvent {| comment := Some c |} env w).2 in
  (provider_outcome env q = MissingCredential ->
     trace w' =
       trace w ++
       [CallGenerate q;
        CallSubmitComment (CommentV2.id c) (JStr (not_configured env));
        ConsoleLog ("Replied to comment " +:+ CommentV2.id c +:+ " with AI response")] /\
     hash_field "stats" "comments_processed" w'
       = hash_field "stats" "comments_processed" w + 1) /\
  (forall e,
     caught_error env (provider_outcome env q) = Some e ->
     trace w' =
       trace w ++
       [CallGenerate q;
        CallFetch (request_of env q);
        provider_log env e;
        CallSubmitComment (CommentV2.id c) (JStr apology);
        ConsoleLog ("Replied to comment " +:+ CommentV2.id c +:+ " with AI response")] /\
     hash_field "stats" "comments_processed" w'
       = hash_field "stats" "comments_processed" w + 1).
Proof.
  intros Hel Hq Hne Hok. cbv zeta.
  rewrite (comment_eligible_run _ _ _ Hel), Hq, Hne. cbn [negb].
  unfold reply_effects, generated_answer, generate_effects.
  split.
  - intros Hout. rewrite Hout. cbn [answer_for caught_error]. rewrite Hok.
    cbn [snd]. rewrite hash_field_count_processed. split; reflexivity.
  - intros e He. rewrite He.
    destruct (provider_outcome env q); try discriminate He;
      cbn [answer_for]; rewrite Hok; cbn [snd];
      rewrite hash_field_count_processed; split; reflexivity.
Qed.

Lemma fixed_messages_are_posted_and_counted_witness :
  let env := Scenario.make_env true "!ask" JNull Scenario.ticking in
  let w' := (CommentCreate_onEvent
               {| comment := Some (Scenario.a_comment "!ask what is photosynthesis") |}
               env initial_world).2 in
  trace w' =
    [CallGenerate "what is photosynthesis";
     CallFetch (openai_request "sk-test" "what is photosynthesis");
     ConsoleError "AI generation error (openai):" TypeError_;
     CallSubmitComment "t1_c1" (JStr apology);
     ConsoleLog "Replied to comment t1_c1 with AI response"] /\
  hash_field "stats" "comments_processed" w' = 1.
Proof.
  intros env w'.
  exact (proj2 (fixed_messages_are_posted_and_counted env initial_world
                  (Scenario.a_comment "!ask what is photosynthesis")
                  "what is photosynthesis" eq_refl eq_refl eq_refl
                  (fun _ => eq_refl))
           TypeError_ eq_refl).
Defined.
